(** * Obsource: the byte-shift codec and its command-line boundary

    A shallow embedding of [obsource.py] and the properties of its
    transform: [obscure_code] adds the seed to every UTF-8 byte of a text
    modulo 256, [deobscure_code] subtracts it and decodes the bytes.

    Python values are modelled as the interpreter has them: a [str] is a
    sequence of code points, a [bytes] object a sequence of bytes, an [int]
    an unbounded integer ([Z]); [%] with a positive divisor is [Z.modulo].
    Exceptions are values of [exn]; code that touches the outside world
    (log file, files, terminal) runs in a state monad over [world]. *)

From Stdlib Require Import ZArith List Lia Bool String Ascii.
From Stdlib Require Import Strings.Byte.
From stdpp Require Import base option list gmap.
Import ListNotations.

#[local] Open Scope Z_scope.

(** lia decides the goals with division and remainder by literals that the
    UTF-8 arithmetic produces. *)
Ltac Zify.zify_post_hook ::= Z.div_mod_to_equations.

(** ** Strings and bytes *)

(** A Python [str]: the list of its code points. *)
Definition str : Type := list Z.

(** A Python [bytes] object. *)
Definition bytes : Type := list byte.

(** String literals of the source, as code points. *)
Definition lit (s : string) : str :=
  map (fun a => Z.of_N (N_of_ascii a)) (list_ascii_of_string s).

(** Iterating over a [bytes] object yields ints in [range(256)]. *)
Definition byte_to_Z (b : byte) : Z := Z.of_N (Byte.to_N b).

Definition byte_of_Z (z : Z) : option byte :=
  if z <? 0 then None else Byte.of_N (Z.to_N z).

(** The byte with a given value, for values known to be in range. *)
Definition byte_of (z : Z) : byte := default x00 (byte_of_Z z).

(** ** Exceptions *)

Inductive exn : Type :=
  | UnicodeEncodeError
  | UnicodeDecodeError
  | ValueError
  | TypeError
  | AttributeError
  | FileNotFoundError
  | IsADirectoryError
  | EOFError
  | SystemExit (msg : str).

(** [except ValueError]: the Unicode errors are subclasses of ValueError. *)
Definition is_ValueError (e : exn) : bool :=
  match e with
  | ValueError | UnicodeEncodeError | UnicodeDecodeError => true
  | _ => false
  end.

(** [except Exception]: everything but SystemExit. *)
Definition is_Exception (e : exn) : bool :=
  match e with
  | SystemExit _ => false
  | _ => true
  end.

Inductive result (A : Type) : Type :=
  | Ok (a : A)
  | Raise (e : exn).
Arguments Ok {A} a.
Arguments Raise {A} e.

#[global] Instance result_ret : MRet result := fun A a => Ok a.
#[global] Instance result_bind : MBind result := fun A B f r =>
  match r with
  | Ok a => f a
  | Raise e => Raise e
  end.

(** ** UTF-8 *)

Definition is_surrogate (c : Z) : bool := (0xD800 <=? c) && (c <=? 0xDFFF).

(** A Unicode scalar value: a code point that is not a surrogate. *)
Definition is_scalar (c : Z) : bool :=
  (0 <=? c) && (c <? 0x110000) && negb (is_surrogate c).

(** The UTF-8 code units of one code point; nothing for a lone surrogate. *)
Definition utf8_encode_char (c : Z) : option (list Z) :=
  if c <? 0 then None
  else if c <? 0x80 then Some [c]
  else if c <? 0x800 then Some [0xC0 + c / 64; 0x80 + c mod 64]
  else if c <? 0x10000 then
    if is_surrogate c then None
    else Some [0xE0 + c / 4096; 0x80 + (c / 64) mod 64; 0x80 + c mod 64]
  else if c <? 0x110000 then
    Some [0xF0 + c / 262144; 0x80 + (c / 4096) mod 64;
          0x80 + (c / 64) mod 64; 0x80 + c mod 64]
  else None.

Fixpoint utf8_encode (s : str) : option (list Z) :=
  match s with
  | [] => Some []
  | c :: s' =>
      match utf8_encode_char c, utf8_encode s' with
      | Some u, Some us => Some (u ++ us)
      | _, _ => None
      end
  end.

Definition is_cont (b : Z) : bool := (0x80 <=? b) && (b <? 0xC0).

(** The strict decoder: shortest form only, no surrogates, nothing above
    U+10FFFF, no truncated sequence. *)
Fixpoint utf8_decode (bs : list Z) : option str :=
  match bs with
  | [] => Some []
  | b0 :: t0 =>
      if b0 <? 0 then None
      else if b0 <? 0x80 then cons b0 <$> utf8_decode t0
      else if b0 <? 0xC2 then None
      else if b0 <? 0xE0 then
        match t0 with
        | b1 :: t1 =>
            if is_cont b1
            then cons ((b0 - 0xC0) * 64 + (b1 - 0x80)) <$> utf8_decode t1
            else None
        | _ => None
        end
      else if b0 <? 0xF0 then
        match t0 with
        | b1 :: b2 :: t2 =>
            let c := (b0 - 0xE0) * 4096 + (b1 - 0x80) * 64 + (b2 - 0x80) in
            if is_cont b1 && is_cont b2 && (0x800 <=? c) && negb (is_surrogate c)
            then cons c <$> utf8_decode t2
            else None
        | _ => None
        end
      else if b0 <? 0xF5 then
        match t0 with
        | b1 :: b2 :: b3 :: t3 =>
            let c := (b0 - 0xF0) * 262144 + (b1 - 0x80) * 4096
                     + (b2 - 0x80) * 64 + (b3 - 0x80) in
            if is_cont b1 && is_cont b2 && is_cont b3
               && (0x10000 <=? c) && (c <? 0x110000)
            then cons c <$> utf8_decode t3
            else None
        | _ => None
        end
      else None
  end.

(** [s.encode('utf-8')] *)
Definition str_encode (s : str) : result bytes :=
  match utf8_encode s with
  | Some us => Ok (map byte_of us)
  | None => Raise UnicodeEncodeError
  end.

(** [b.decode('utf-8')] *)
Definition bytes_decode (b : bytes) : result str :=
  match utf8_decode (map byte_to_Z b) with
  | Some s => Ok s
  | None => Raise UnicodeDecodeError
  end.

(** [bytes(iterable_of_ints)]: ValueError unless every int is in
    [range(256)]. *)
Fixpoint bytes_ctor (l : list Z) : result bytes :=
  match l with
  | [] => Ok []
  | z :: l' =>
      match byte_of_Z z with
      | Some b => bs ← bytes_ctor l'; mret (b :: bs)
      | None => Raise ValueError
      end
  end.

(** ** The platform

    What the interpreter and the operating system supply and the script
    does not define: the Unicode tables, the text of an exception, the MD5
    digest, the codec of files opened in text mode and the rendering of the
    elapsed time. *)

Class Platform : Type := {
  (** [Py_UNICODE_ISSPACE] on code points from 127 up. *)
  unicode_isspace : Z -> bool;
  (** [Py_UNICODE_TODECIMAL] on code points from 127 up. *)
  unicode_todecimal : Z -> option Z;
  (** [sys.get_int_max_str_digits()]; 0 switches the limit off. *)
  int_max_str_digits : Z;
  (** [str.lower] *)
  str_lower : str -> str;
  (** [str(e)] for an exception [e]. *)
  exn_str : exn -> str;
  (** [hashlib.md5(data).hexdigest()] *)
  md5_hexdigest : bytes -> str;
  (** Reading through a file opened with mode ['r']: decoding in the locale's
      encoding and newline translation. *)
  text_read : bytes -> result str;
  (** Writing through a file opened with mode ['w']. *)
  text_write : str -> result bytes;
  (** [f"{end - start:.2f}"] for two readings of [time.time()]. *)
  fmt_elapsed : Z -> Z -> str
}.

(** ** The world *)

Inductive node : Type :=
  | File (data : bytes)
  | Dir.

Inductive level : Type := INFO | ERROR.

(** [w_fs] maps absolute paths to what is there; [w_log] is what has been
    appended to the log file [obscurce.log] that [logging.basicConfig]
    opened when the module was loaded; [w_stdin] holds the lines the user
    will type; [w_clock] gives the successive readings of [time.time()].
    A path names one file: links between paths are not modelled, and the
    log file is kept apart from [w_fs]. *)
Record world : Type := mkWorld {
  w_fs : gmap str node;
  w_cwd : str;
  w_log : list (level * str);
  w_stdout : list str;
  w_stdin : list str;
  w_clock : nat -> Z;
  w_reads : nat
}.

Definition M (A : Type) : Type := world -> result A * world.

#[global] Instance M_ret : MRet M := fun A a w => (Ok a, w).
#[global] Instance M_bind : MBind M := fun A B f m w =>
  match m w with
  | (Ok a, w') => f a w'
  | (Raise e, w') => (Raise e, w')
  end.

Definition lift {A} (r : result A) : M A := fun w => (r, w).
Definition raise {A} (e : exn) : M A := fun w => (Raise e, w).

(** [try: m  except Exception as e: h e] *)
Definition try_except {A} (m : M A) (h : exn -> M A) : M A := fun w =>
  match m w with
  | (Raise e, w') => if is_Exception e then h e w' else (Raise e, w')
  | r => r
  end.

Definition logging_log (l : level) (msg : str) : M () := fun w =>
  (Ok (), mkWorld (w_fs w) (w_cwd w) (w_log w ++ [(l, msg)]) (w_stdout w)
                  (w_stdin w) (w_clock w) (w_reads w)).

Definition logging_info : str -> M () := logging_log INFO.
Definition logging_error : str -> M () := logging_log ERROR.

(** ** The codec *)

(** What [open(...).read()] hands to the codec: a [str] from a file opened
    in text mode, a [bytes] object from one opened in binary mode. *)
Inductive pyval : Type :=
  | VStr (s : str)
  | VBytes (b : bytes).

Section Codec.
Context `{Platform}.

(** The [try] block of [obscure_code]. *)
Definition obscure_code_body (code : pyval) (seed : Z) : result bytes :=
  match code with
  | VStr s =>
      bytes_code ← str_encode s;
      bytes_ctor (map (fun byte => (byte_to_Z byte + seed) mod 256) bytes_code)
  | VBytes _ => Raise AttributeError
  end.

Definition obscure_code (code : pyval) (seed : Z) : M bytes :=
  try_except (lift (obscure_code_body code seed))
    (fun e => logging_error (lit "Error obscuring code: " ++ exn_str e);;
              raise e).

(** The [try] block of [deobscure_code].  Iterating over a [str] yields
    one-character strings, and [byte - seed] is then a TypeError. *)
Definition deobscure_code_body (code : pyval) (seed : Z) : result str :=
  match code with
  | VBytes b =>
      shifted ← bytes_ctor (map (fun byte => (byte_to_Z byte - seed) mod 256) b);
      bytes_decode shifted
  | VStr [] => bytes_decode []
  | VStr (_ :: _) => Raise TypeError
  end.

Definition deobscure_code (code : pyval) (seed : Z) : M str :=
  try_except (lift (deobscure_code_body code seed))
    (fun e => logging_error (lit "Error deobscuring code: " ++ exn_str e);;
              raise e).

End Codec.

(** ** String methods and [os.path] (POSIX flavour) *)

Definition str_eqb (a b : str) : bool := bool_decide (a = b).

(** [s.endswith(suffix)] *)
Definition endswith (s suffix : str) : bool :=
  bool_decide (suffix `suffix_of` s).

(** [s.startswith(prefix)] *)
Definition startswith (s prefix : str) : bool :=
  bool_decide (prefix `prefix_of` s).

Fixpoint rfind_from (ch : Z) (p : str) (i found : Z) : Z :=
  match p with
  | [] => found
  | x :: p' => rfind_from ch p' (i + 1) (if x =? ch then i else found)
  end.

(** [p.rfind(ch)]: the highest index of [ch], or -1. *)
Definition rfind (p : str) (ch : Z) : Z := rfind_from ch p 0 (-1).

(** [p[:i]] and [p[i:]] for [0 <= i]. *)
Definition slice_to (p : str) (i : Z) : str := take (Z.to_nat i) p.
Definition slice_from (p : str) (i : Z) : str := drop (Z.to_nat i) p.

Fixpoint lstrip_ch (ch : Z) (s : str) : str :=
  match s with
  | x :: s' => if x =? ch then lstrip_ch ch s' else s
  | [] => []
  end.

(** [s.rstrip(ch)] *)
Definition rstrip_ch (ch : Z) (s : str) : str := rev (lstrip_ch ch (rev s)).

Definition sep : Z := 47.     (* '/' *)
Definition extsep : Z := 46.  (* '.' *)

(** [os.path.dirname] *)
Definition os_path_dirname (p : str) : str :=
  let i := rfind p sep + 1 in
  let head := slice_to p i in
  if negb (str_eqb head []) && negb (forallb (Z.eqb sep) head)
  then rstrip_ch sep head
  else head.

(** [os.path.join] of two components *)
Definition os_path_join (a b : str) : str :=
  if startswith b [sep] then b
  else if str_eqb a [] || endswith a [sep] then a ++ b
  else a ++ [sep] ++ b.

(** [os.path.splitext]: the extension starts at the last dot of the last
    component, unless only dots come before it in that component. *)
Definition os_path_splitext (p : str) : str * str :=
  let sepIndex := rfind p sep in
  let dotIndex := rfind p extsep in
  if (sepIndex <? dotIndex)
     && negb (forallb (Z.eqb extsep) (slice_from (slice_to p dotIndex) (sepIndex + 1)))
  then (slice_to p dotIndex, slice_from p dotIndex)
  else (p, []).

(** ** Files, terminal and clock *)

Definition set_fs (fs : gmap str node) (w : world) : world :=
  mkWorld fs (w_cwd w) (w_log w) (w_stdout w) (w_stdin w) (w_clock w) (w_reads w).

(** The key of a path in [w_fs]. *)
Definition abspath (cwd p : str) : str :=
  if startswith p [sep] then p else os_path_join cwd p.

Definition os_getcwd : M str := fun w => (Ok (w_cwd w), w).

Definition os_path_isfile (p : str) : M bool := fun w =>
  (Ok match w_fs w !! abspath (w_cwd w) p with
      | Some (File _) => true
      | _ => false
      end, w).

Definition os_path_exists (p : str) : M bool := fun w =>
  (Ok match w_fs w !! abspath (w_cwd w) p with
      | Some _ => true
      | None => false
      end, w).

(** [open(p, 'rb').read()] *)
Definition read_binary (p : str) : M bytes := fun w =>
  match w_fs w !! abspath (w_cwd w) p with
  | Some (File data) => (Ok data, w)
  | Some Dir => (Raise IsADirectoryError, w)
  | None => (Raise FileNotFoundError, w)
  end.

(** Opening for writing creates the file or truncates it. *)
Definition open_for_write (p : str) : M () := fun w =>
  match w_fs w !! abspath (w_cwd w) p with
  | Some Dir => (Raise IsADirectoryError, w)
  | _ => (Ok (), set_fs (<[abspath (w_cwd w) p := File []]> (w_fs w)) w)
  end.

Definition store (p : str) (data : bytes) : M () := fun w =>
  (Ok (), set_fs (<[abspath (w_cwd w) p := File data]> (w_fs w)) w).

Definition print (msg : str) : M () := fun w =>
  (Ok (), mkWorld (w_fs w) (w_cwd w) (w_log w) (w_stdout w ++ [msg])
                  (w_stdin w) (w_clock w) (w_reads w)).

(** [input(prompt)]: EOFError when nothing is left to read.  The user
    types lines or ends the input; an interrupt from the keyboard is not
    modelled. *)
Definition input (prompt : str) : M str := fun w =>
  let out := w_stdout w ++ [prompt] in
  match w_stdin w with
  | line :: rest =>
      (Ok line, mkWorld (w_fs w) (w_cwd w) (w_log w) out rest (w_clock w) (w_reads w))
  | [] =>
      (Raise EOFError,
       mkWorld (w_fs w) (w_cwd w) (w_log w) out [] (w_clock w) (w_reads w))
  end.

Definition time_time : M Z := fun w =>
  (Ok (w_clock w (w_reads w)),
   mkWorld (w_fs w) (w_cwd w) (w_log w) (w_stdout w) (w_stdin w) (w_clock w)
           (S (w_reads w))).

(** ** [int(s)] for a string *)

Definition ascii_isspace (c : Z) : bool := (c =? 32) || ((9 <=? c) && (c <=? 13)).
Definition is_digit (c : Z) : bool := (48 <=? c) && (c <=? 57).

Fixpoint lstrip_space (s : str) : str :=
  match s with
  | c :: s' => if ascii_isspace c then lstrip_space s' else s
  | [] => []
  end.

(** Digits with single underscores between them.  Returns the value, the
    number of digits and what follows; nothing when two underscores meet or
    an underscore comes last. *)
Fixpoint scan_digits (s : str) (acc ndigits prev : Z) : option (Z * Z * str) :=
  match s with
  | c :: s' =>
      if is_digit c then scan_digits s' (acc * 10 + (c - 48)) (ndigits + 1) c
      else if c =? 95 then
        if prev =? 95 then None else scan_digits s' acc ndigits c
      else if prev =? 95 then None else Some (acc, ndigits, s)
  | [] => if prev =? 95 then None else Some (acc, ndigits, [])
  end.

(** An optional ['+'] or ['-'] in front. *)
Definition split_sign (s : str) : Z * str :=
  match s with
  | 43 :: r => (1, r)
  | 45 :: r => (-1, r)
  | _ => (1, s)
  end.

Section Int.
Context `{Platform}.

(** Unicode spaces become a blank and Unicode decimal digits their ASCII
    digit; the first other character from 127 up becomes ['?'] and ends the
    text. *)
Fixpoint transform_decimal_and_space (s : str) : str :=
  match s with
  | [] => []
  | c :: s' =>
      if c <? 127 then c :: transform_decimal_and_space s'
      else if unicode_isspace c then 32 :: transform_decimal_and_space s'
      else match unicode_todecimal c with
           | Some d => (48 + d) :: transform_decimal_and_space s'
           | None => [63]
           end
  end.

(** Base 10: blanks, an optional sign, the digits, blanks. *)
Definition long_from_string (s : str) : result Z :=
  let s1 := lstrip_space s in
  let '(sign, s2) := split_sign s1 in
  if startswith s2 [95] then Raise ValueError
  else match scan_digits s2 0 0 0 with
       | None => Raise ValueError
       | Some (v, ndigits, rest) =>
           if (640 <? ndigits) && (0 <? int_max_str_digits)
              && (int_max_str_digits <? ndigits)
           then Raise ValueError
           else if ndigits =? 0 then Raise ValueError
           else match lstrip_space rest with
                | [] => Ok (sign * v)
                | _ => Raise ValueError
                end
       end.

Definition int_of_str (s : str) : result Z :=
  long_from_string (transform_decimal_and_space s).

End Int.

(** ** The command-line boundary *)

(** What [parse_arguments] returns: each positional argument is optional,
    and argparse has already applied [int] to the seed. *)
Record Namespace : Type := mkNamespace {
  ns_mode : option str;
  ns_file : option str;
  ns_seed : option Z
}.

(** [parse_arguments] when the command line has no argument. *)
Definition no_arguments : M Namespace := mret (mkNamespace None None None).

(** The seed as [main] holds it before validation: an int from the command
    line, a string from the prompt. *)
Inductive seed_value : Type :=
  | SeedInt (n : Z)
  | SeedStr (s : str).

Definition truthy_str (o : option str) : bool :=
  match o with
  | Some (_ :: _) => true
  | _ => false
  end.

Definition truthy_int (o : option Z) : bool :=
  match o with
  | Some n => negb (n =? 0)
  | None => false
  end.

Section Boundary.
Context `{Platform}.

Definition calculate_md5 (file_path : str) : M str :=
  data ← read_binary file_path;
  mret (md5_hexdigest data).

Definition validate_file_path (file_path : str) : M bool :=
  isfile ← os_path_isfile file_path;
  if negb isfile
  then logging_error (lit "File " ++ file_path ++ lit " does not exist.");;
       mret false
  else mret true.

(** [with open(file_path, 'rb' if mode == 'd' else 'r') as file:
      content = file.read()] *)
Definition content_of (mode : str) (raw : bytes) : result pyval :=
  if str_eqb mode (lit "d") then Ok (VBytes raw)
  else s ← text_read raw; mret (VStr s).

Definition read_content (file_path mode : str) : M pyval :=
  raw ← read_binary file_path;
  lift (content_of mode raw).

(** [with open(new_file_path, 'wb' if mode == 'o' else 'w') as file:
      file.write(new_content)] *)
Definition payload (mode : str) (new_content : pyval) : result bytes :=
  match new_content with
  | VBytes b => if str_eqb mode (lit "o") then Ok b else Raise TypeError
  | VStr s => if str_eqb mode (lit "o") then Raise TypeError else text_write s
  end.

Definition write_content (new_file_path mode : str) (new_content : pyval) : M () :=
  open_for_write new_file_path;;
  data ← lift (payload mode new_content);
  store new_file_path data.

Definition mode_verb (mode : str) : str :=
  if str_eqb mode (lit "o") then lit "obscured" else lit "deobscured".

(** The path that [updated_process_file] works on. *)
Definition resolve_path (cwd file_path : str) : str :=
  if str_eqb (os_path_dirname file_path) []
  then os_path_join cwd file_path
  else file_path.

(** The path of the output, lines 101-107. *)
Definition new_path (file_path mode : str) : str :=
  let base_filename := (os_path_splitext file_path).1 in
  if str_eqb mode (lit "o") then base_filename ++ lit "_obscure.py"
  else base_filename ++ lit "_deobscure.py".

(** Lines 101-107: the transform and the output path. *)
Definition transform (file_path mode : str) (content : pyval) (seed : Z)
  : M (pyval * str) :=
  let base_filename := (os_path_splitext file_path).1 in
  if str_eqb mode (lit "o")
  then new_content ← obscure_code content seed;
       mret (VBytes new_content, base_filename ++ lit "_obscure.py")
  else new_content ← deobscure_code content seed;
       mret (VStr new_content, base_filename ++ lit "_deobscure.py").

Definition overwrite_prompt (new_file_path : str) : str :=
  lit "File " ++ new_file_path ++ lit " already exists. Overwrite? (y/n): ".

(** Lines 109-113: whether to go on to the write. *)
Definition confirm_overwrite (new_file_path : str) : M bool :=
  present ← os_path_exists new_file_path;
  if (present : bool)
  then answer ← input (overwrite_prompt new_file_path);
       let overwrite := str_lower answer in
       mret (str_eqb overwrite (lit "y"))
  else mret true.

(** Lines 115-123. *)
Definition write_and_report (new_file_path mode : str) (new_content : pyval)
    (start_time : Z) : M () :=
  write_content new_file_path mode new_content;;
  md5_new ← calculate_md5 new_file_path;
  logging_info (lit "MD5 of new file (" ++ new_file_path ++ lit "): " ++ md5_new);;
  end_time ← time_time;
  let report := lit "File " ++ new_file_path ++ lit " successfully "
                ++ mode_verb mode ++ lit " in "
                ++ fmt_elapsed start_time end_time ++ lit " seconds." in
  print report;;
  logging_info report.

(** Line 96: the record with the digest of the input. *)
Definition md5_record (file_path md5_original : str) : str :=
  lit "MD5 of original file (" ++ file_path ++ lit "): " ++ md5_original.

(** Lines 125-127: the [except Exception] clause. *)
Definition report_unexpected (e : exn) : M () :=
  print (lit "An unexpected error occurred: " ++ exn_str e);;
  logging_error (lit "An unexpected error occurred: " ++ exn_str e).

Definition updated_process_file (file_path : str) (seed : Z) (mode : str) : M () :=
  start_time ← time_time;
  try_except
    (cwd ← os_getcwd;
     let file_path := resolve_path cwd file_path in
     valid ← validate_file_path file_path;
     if negb valid
     then print (lit "Error: File " ++ file_path ++ lit " does not exist.")
     else
       md5_original ← calculate_md5 file_path;
       logging_info (md5_record file_path md5_original);;
       content ← read_content file_path mode;
       '(new_content, new_file_path) ← transform file_path mode content seed;
       proceed ← confirm_overwrite new_file_path;
       if negb proceed
       then print (lit "Operation cancelled.")
       else write_and_report new_file_path mode new_content start_time)
    report_unexpected.

Definition sys_exit {A} (msg : str) : M A := raise (SystemExit msg).

(** [clear_screen] acts on the terminal only and is left out. *)
Definition interactive_input : M (str * str * seed_value) :=
  print (lit "Obsource - Sourcecode Security through obscurity v0.1");;
  print (lit "=======================================================" ++ [10]);;
  answer ← input (lit "Do you want to obscure (o) or deobscure (d) a source code? Enter 'o' or 'd' (or 'q' to quit): ");
  let mode := str_lower answer in
  if str_eqb mode (lit "q") then sys_exit (lit "Exiting Obscurce.")
  else
    file_path ← input (lit "Enter the name of the Python file (with .py): ");
    if str_eqb file_path (lit "q") then sys_exit (lit "Exiting Obscurce.")
    else
      seed ← input (lit "Enter a four-digit initial code (Seed): ");
      if str_eqb seed (lit "q") then sys_exit (lit "Exiting Obscurce.")
      else mret (mode, file_path, SeedStr seed).

(** [int(seed)] *)
Definition int_of_seed (seed : seed_value) : result Z :=
  match seed with
  | SeedInt n => Ok n
  | SeedStr s => int_of_str s
  end.

(** Lines 172-178: [Ok] with the seed, or the ValueError that the
    [except] clause turns into a message. *)
Definition checked_seed (seed : seed_value) : result Z :=
  n ← int_of_seed seed;
  if negb ((1000 <=? n) && (n <=? 9999)) then Raise ValueError else Ok n.

(** Lines 160-166: the arguments of the command line when all three
    are there and truthy, the answers to the prompts otherwise. *)
Definition resolve_arguments (args : Namespace) : M (str * str * seed_value) :=
  if truthy_str (ns_mode args) && truthy_str (ns_file args)
     && truthy_int (ns_seed args)
  then mret (default [] (ns_mode args), default [] (ns_file args),
             SeedInt (default 0 (ns_seed args)))
  else interactive_input.

(** Lines 168-180: the checks on the extension and the seed, and the
    call of [updated_process_file]. *)
Definition validate_and_run (mode file_path : str) (seed : seed_value) : M () :=
  if negb (endswith file_path (lit ".py"))
  then print (lit "Invalid file extension. Please specify a Python file (.py).")
  else
    match checked_seed seed with
    | Ok seed => updated_process_file file_path seed mode
    | Raise e =>
        if is_ValueError e
        then print (lit "Invalid input. The seed must be a four-digit number.")
        else raise e
    end.

(** Line 158 calls [parse_arguments], which leaves the command line to
    argparse: it returns a Namespace, or raises SystemExit after the usage
    or help text.  What argparse does is not part of the script, so [main]
    takes that call as the computation [parse_arguments]. *)
Definition main (parse_arguments : M Namespace) : M () :=
  args ← parse_arguments;
  '(mode, file_path, seed) ← resolve_arguments args;
  validate_and_run mode file_path seed.

End Boundary.

(** ** Notions the properties are stated with *)

Definition in_byte_range (z : Z) : Prop := 0 <= z < 256.

(** A text: every code point is a Unicode scalar value.  These are the
    strings that have a UTF-8 encoding, and the only ones that reading a
    file yields. *)
Definition text (P : str) : Prop := Forall (fun c => is_scalar c = true) P.

(** A byte sequence is valid UTF-8 when it is the encoding of some text. *)
Definition valid_utf8 (bs : list Z) : Prop := exists P, utf8_encode P = Some bs.

(** Each byte replaced with [(b + s) mod 256]. *)
Definition shift_up (s : Z) (bs : list Z) : list Z :=
  map (fun b => (b + s) mod 256) bs.

(** Each byte of [C] shifted down by [s mod 256], wrapping around. *)
Definition shift_down (s : Z) (C : bytes) : list Z :=
  map (fun b => (byte_to_Z b - s mod 256) mod 256) C.

(** What [updated_process_file] computes from the content of the input
    when neither codec function raises. *)
Definition codec_value (mode : str) (content : pyval) (seed : Z) : result pyval :=
  if str_eqb mode (lit "o")
  then C ← obscure_code_body content seed; mret (VBytes C)
  else P ← deobscure_code_body content seed; mret (VStr P).

(** The naming convention: [name_obscure.ext] in obscure mode,
    [name_deobscure.ext] otherwise. *)
Definition output_name (name ext mode : str) : str :=
  name ++ (if str_eqb mode (lit "o") then lit "_obscure" else lit "_deobscure")
       ++ ext.

(** The world once the clock is read and a record is logged. *)
Definition after_record (w : world) (record : str) : world :=
  mkWorld (w_fs w) (w_cwd w) (w_log w ++ [(INFO, record)]) (w_stdout w)
          (w_stdin w) (w_clock w) (S (w_reads w)).

(** [writes cwd q m]: run in the directory [cwd], [m] stays there and
    leaves every path but [q] as it was. *)
Definition writes {A} (cwd q : str) (m : M A) : Prop :=
  forall w, w_cwd w = cwd ->
    w_cwd (m w).2 = cwd
    /\ forall k, k <> abspath cwd q -> w_fs (m w).2 !! k = w_fs w !! k.

(** [keeps m]: [m] changes neither the files nor the directory. *)
Definition keeps {A} (m : M A) : Prop :=
  forall w, w_cwd (m w).2 = w_cwd w /\ w_fs (m w).2 = w_fs w.

(** [silent m]: [m] changes neither the files nor the log. *)
Definition silent {A} (m : M A) : Prop :=
  forall w, w_fs (m w).2 = w_fs w /\ w_log (m w).2 = w_log w.

(** Exactly four decimal digits. *)
Definition four_digits (s : str) : Prop :=
  length s = 4%nat /\ Forall (fun c => is_digit c = true) s.

(** ** A platform to run the model on

    ASCII tables and UTF-8 text files without newline translation.  The
    digest, the text of an exception and the elapsed time are stand-ins:
    constant strings, since no property looks into them. *)

Definition ascii_lower (c : Z) : Z :=
  if (65 <=? c) && (c <=? 90) then c + 32 else c.

Definition ascii_platform : Platform := {|
  unicode_isspace := fun _ => false;
  unicode_todecimal := fun _ => None;
  int_max_str_digits := 4300;
  str_lower := map ascii_lower;
  exn_str := fun _ => lit "<error>";
  md5_hexdigest := fun _ => lit "<md5>";
  text_read := bytes_decode;
  text_write := str_encode;
  fmt_elapsed := fun _ _ => lit "<elapsed>"
|}.

Definition empty_world : world :=
  mkWorld ∅ (lit "/home") [] [] [] (fun _ => 0) 0.

(** Worlds for the examples: a source file in [/home], with and without an
    output of an earlier run next to it. *)

Definition hi_py : bytes := map byte_of (lit "print('hi')").

Definition fresh_world (stdin : list str) : world :=
  mkWorld (<[lit "/home/a.py" := File hi_py]> ∅) (lit "/home") [] [] stdin
          (fun _ => 0) 0.

Definition rerun_world (stdin : list str) : world :=
  mkWorld (<[lit "/home/a_obscure.py" := File (map byte_of (lit "old"))]>
             (<[lit "/home/a.py" := File hi_py]> ∅))
          (lit "/home") [] [] stdin (fun _ => 0) 0.

(** ASCII, a two-byte, a three-byte and a four-byte character. *)
Definition sample_text : str := lit "print('hi')" ++ [233; 0x20AC; 0x1F600].

(** ** Notions for the further properties *)

(** The world with one more record in the log. *)
Definition logged (l : level) (record : str) (w : world) : world :=
  mkWorld (w_fs w) (w_cwd w) (w_log w ++ [(l, record)]) (w_stdout w)
          (w_stdin w) (w_clock w) (w_reads w).

(** The world with one more line on the terminal. *)
Definition printed (line : str) (w : world) : world :=
  mkWorld (w_fs w) (w_cwd w) (w_log w) (w_stdout w ++ [line])
          (w_stdin w) (w_clock w) (w_reads w).

(** The world after one reading of the clock. *)
Definition ticked (w : world) : world :=
  mkWorld (w_fs w) (w_cwd w) (w_log w) (w_stdout w) (w_stdin w) (w_clock w)
          (S (w_reads w)).

(** The record that [obscure_code] or [deobscure_code] logs before it
    raises again. *)
Definition codec_error_record `{Platform} (mode : str) (e : exn) : str :=
  (if str_eqb mode (lit "o") then lit "Error obscuring code: "
   else lit "Error deobscuring code: ") ++ exn_str e.

Definition unexpected_error_line `{Platform} (e : exn) : str :=
  lit "An unexpected error occurred: " ++ exn_str e.

Definition missing_file_record (p : str) : str :=
  lit "File " ++ p ++ lit " does not exist.".

Definition banner : list str :=
  [lit "Obsource - Sourcecode Security through obscurity v0.1";
   lit "=======================================================" ++ [10]].

Definition mode_prompt : str :=
  lit "Do you want to obscure (o) or deobscure (d) a source code? Enter 'o' or 'd' (or 'q' to quit): ".
Definition file_prompt : str := lit "Enter the name of the Python file (with .py): ".
Definition seed_prompt : str := lit "Enter a four-digit initial code (Seed): ".

(** The world after the banner and the prompts shown, with [rest] left to
    read. *)
Definition prompted (prompts : list str) (rest : list str) (w : world) : world :=
  mkWorld (w_fs w) (w_cwd w) (w_log w) (w_stdout w ++ banner ++ prompts)
          rest (w_clock w) (w_reads w).

(** ** The chunked digest of [calculate_md5] *)

(** [f.read(4096)] *)
Definition chunk_size : nat := 4096.

Section ChunkedDigest.
Variable hash : Type.
Variable md5_update : hash -> bytes -> hash.

(** [for chunk in iter(lambda: f.read(4096), b""): hash_md5.update(chunk)]
    on what is left of the file; the loop ends at the first empty chunk,
    and [fuel] bounds the number of reads. *)
Fixpoint md5_loop (fuel : nat) (h : hash) (f : bytes) : option hash :=
  match fuel with
  | O => None
  | S fuel' =>
      match take chunk_size f with
      | [] => Some h
      | chunk => md5_loop fuel' (md5_update h chunk) (drop chunk_size f)
      end
  end.

End ChunkedDigest.

(** A hash object that keeps what it was fed, to run the loop on. *)
Definition feed (h chunk : bytes) : bytes := h ++ chunk.

(** A string of ASCII characters. *)
Definition ascii_only (l : list Z) : Prop := Forall (fun c => 0 <= c < 128) l.

(** ** More worlds for the examples *)

(** The obscured source, and the worlds that hold it. *)
Definition hi_obscured : bytes := map byte_of (shift_up 1234 (lit "print('hi')")).

Definition obscured_world : world :=
  mkWorld (<[lit "/home/a_obscure.py" := File hi_obscured]> ∅) (lit "/home")
          [] [] [] (fun _ => 0) 0.

(** A file of 5000 bytes: two chunks, then the empty one. *)
Definition big_file : bytes := repeat x41 5000.

Definition big_world : world :=
  mkWorld (<[lit "/home/big.py" := File big_file]> ∅) (lit "/home") [] [] []
          (fun _ => 0) 0.

(** ** Proof tools *)

(** Boolean comparisons in hypotheses, as propositions. *)
Ltac bool_hyps :=
  repeat match goal with
    | H : _ && _ = true |- _ => apply andb_prop in H; destruct H
    | H : negb _ = true |- _ => apply negb_true_iff in H
    | H : _ && _ = false |- _ => apply andb_false_iff in H; destruct H
    | H : (_ <? _) = true |- _ => apply Z.ltb_lt in H
    | H : (_ <? _) = false |- _ => apply Z.ltb_ge in H
    | H : (_ <=? _) = true |- _ => apply Z.leb_le in H
    | H : (_ <=? _) = false |- _ => apply Z.leb_gt in H
    end.

(** Case analysis on every comparison of the goal. *)
Ltac case_ltb :=
  repeat match goal with
    | |- context [?a <? ?b] => destruct (Z.ltb_spec a b)
    | |- context [?a <=? ?b] => destruct (Z.leb_spec a b)
    end.

(** Comparisons of the goal that lia decides, replaced with their value. *)
Ltac decide_cmp :=
  repeat match goal with
    | |- context [?a <? ?b] =>
        first [ replace (a <? b) with true by (symmetry; apply Z.ltb_lt; lia)
              | replace (a <? b) with false by (symmetry; apply Z.ltb_ge; lia) ]
    | |- context [?a <=? ?b] =>
        first [ replace (a <=? b) with true by (symmetry; apply Z.leb_le; lia)
              | replace (a <=? b) with false by (symmetry; apply Z.leb_gt; lia) ]
    end.

(** * Properties *)

(** ** Bytes and UTF-8 *)

Lemma byte_to_Z_range (b : byte) : 0 <= byte_to_Z b < 256.
Proof.
  unfold byte_to_Z. pose proof (Byte.to_N_bounded b). lia.
Qed.

Lemma byte_of_Z_to_Z (b : byte) : byte_of_Z (byte_to_Z b) = Some b.
Proof.
  unfold byte_of_Z, byte_to_Z.
  destruct (Z.ltb_spec (Z.of_N (Byte.to_N b)) 0) as [Hneg|_]; [lia|].
  rewrite N2Z.id. apply Byte.of_to_N.
Qed.

Lemma byte_of_Z_Some (z : Z) (b : byte) : byte_of_Z z = Some b -> byte_to_Z b = z.
Proof.
  unfold byte_of_Z, byte_to_Z.
  destruct (Z.ltb_spec z 0) as [|Hz]; [discriminate|].
  intros Hb. apply Byte.to_of_N in Hb. rewrite Hb. lia.
Qed.

Lemma byte_of_Z_in_range (z : Z) :
  0 <= z < 256 -> byte_of_Z z = Some (byte_of z) /\ byte_to_Z (byte_of z) = z.
Proof.
  intros Hz. unfold byte_of.
  destruct (byte_of_Z z) as [b|] eqn:Hb.
  - split; [reflexivity|]. now apply byte_of_Z_Some.
  - exfalso. unfold byte_of_Z in Hb.
    destruct (Z.ltb_spec z 0); [lia|].
    apply Byte.of_N_None_iff in Hb. lia.
Qed.

Lemma byte_of_to_Z (b : byte) : byte_of (byte_to_Z b) = b.
Proof. unfold byte_of. now rewrite byte_of_Z_to_Z. Qed.

Lemma byte_of_Z_None (z : Z) : byte_of_Z z = None <-> ~ (0 <= z < 256).
Proof.
  split.
  - intros Hn Hz. apply byte_of_Z_in_range in Hz as [Hs _]. congruence.
  - intros Hz. destruct (byte_of_Z z) as [b|] eqn:Hb; [|reflexivity].
    apply byte_of_Z_Some in Hb. pose proof (byte_to_Z_range b). lia.
Qed.

Lemma bytes_ctor_in_range (l : list Z) :
  Forall in_byte_range l -> bytes_ctor l = Ok (map byte_of l).
Proof.
  induction 1 as [|z l Hz _ IH]; [reflexivity|].
  cbn [bytes_ctor map]. destruct (byte_of_Z_in_range z Hz) as [-> _].
  now rewrite IH.
Qed.

Lemma bytes_ctor_Ok (l : list Z) (bs : bytes) :
  bytes_ctor l = Ok bs -> Forall in_byte_range l /\ map byte_to_Z bs = l.
Proof.
  revert bs. induction l as [|z l IH]; intros bs; cbn [bytes_ctor].
  - intros [= <-]. split; constructor.
  - destruct (byte_of_Z z) as [b|] eqn:Hb; [|discriminate].
    destruct (bytes_ctor l) as [bs'|e]; [|discriminate].
    intros [= <-]. destruct (IH bs' eq_refl) as [Hall Hmap].
    apply byte_of_Z_Some in Hb. split.
    + constructor; [|exact Hall]. pose proof (byte_to_Z_range b).
      unfold in_byte_range. lia.
    + cbn. now rewrite Hb, Hmap.
Qed.

Lemma map_byte_to_Z_of (l : list Z) :
  Forall in_byte_range l -> map byte_to_Z (map byte_of l) = l.
Proof.
  induction 1 as [|z l Hz _ IH]; [reflexivity|].
  cbn. rewrite IH. now destruct (byte_of_Z_in_range z Hz) as [_ ->].
Qed.

Lemma map_byte_of_to_Z (b : bytes) : map byte_of (map byte_to_Z b) = b.
Proof.
  induction b as [|x b IH]; [reflexivity|].
  cbn. now rewrite byte_of_to_Z, IH.
Qed.

Lemma map_byte_to_Z_inj (a b : bytes) : map byte_to_Z a = map byte_to_Z b -> a = b.
Proof.
  intros Heq. rewrite <- (map_byte_of_to_Z a), <- (map_byte_of_to_Z b).
  now rewrite Heq.
Qed.

Lemma is_scalar_spec (c : Z) :
  is_scalar c = true <-> (0 <= c < 0xD800 \/ 0xDFFF < c < 0x110000).
Proof.
  unfold is_scalar, is_surrogate.
  case_ltb; cbn; split; intros; try lia; try discriminate; reflexivity.
Qed.

Lemma utf8_encode_char_scalar (c : Z) :
  is_Some (utf8_encode_char c) <-> is_scalar c = true.
Proof.
  rewrite is_scalar_spec. unfold utf8_encode_char, is_surrogate.
  case_ltb; cbn; split; intros Hc;
    try lia; try (by eexists); try (by destruct Hc as [? [=]]).
Qed.

Lemma utf8_encode_char_range (c : Z) (u : list Z) :
  utf8_encode_char c = Some u -> Forall in_byte_range u.
Proof.
  unfold utf8_encode_char, is_surrogate, in_byte_range.
  case_ltb; cbn; intros [= <-]; repeat constructor; lia.
Qed.

Lemma utf8_decode_encode_char (c : Z) (u rest : list Z) :
  utf8_encode_char c = Some u ->
  utf8_decode (u ++ rest) = cons c <$> utf8_decode rest.
Proof.
  unfold utf8_encode_char, is_surrogate.
  destruct (Z.ltb_spec c 0); [discriminate|].
  destruct (Z.ltb_spec c 0x80).
  { intros [= <-]. cbn [app utf8_decode]. now decide_cmp. }
  destruct (Z.ltb_spec c 0x800).
  { intros [= <-]. cbn [app utf8_decode]. unfold is_cont. decide_cmp.
    cbn [andb]. do 2 f_equal. lia. }
  destruct (Z.ltb_spec c 0x10000).
  { destruct (Z.leb_spec 0xD800 c), (Z.leb_spec c 0xDFFF); cbn [andb];
      try discriminate; intros [= <-]; cbn [app utf8_decode];
      unfold is_cont, is_surrogate; decide_cmp; cbn [andb negb];
      do 2 f_equal; lia. }
  destruct (Z.ltb_spec c 0x110000); [|discriminate].
  intros [= <-]. cbn [app utf8_decode]. unfold is_cont. decide_cmp.
  cbn [andb]. do 2 f_equal. lia.
Qed.

Lemma utf8_encode_range (s : str) (us : list Z) :
  utf8_encode s = Some us -> Forall in_byte_range us.
Proof.
  revert us. induction s as [|c s IH]; intros us; cbn [utf8_encode].
  - intros [= <-]. constructor.
  - destruct (utf8_encode_char c) as [u|] eqn:Hu; [|discriminate].
    destruct (utf8_encode s) as [us'|]; [|discriminate].
    intros [= <-]. apply Forall_app. split; [|now apply IH].
    eapply utf8_encode_char_range, Hu.
Qed.

Lemma utf8_decode_encode (s : str) (us : list Z) :
  utf8_encode s = Some us -> utf8_decode us = Some s.
Proof.
  revert us. induction s as [|c s IH]; intros us; cbn [utf8_encode].
  - now intros [= <-].
  - destruct (utf8_encode_char c) as [u|] eqn:Hu; [|discriminate].
    destruct (utf8_encode s) as [us'|]; [|discriminate].
    intros [= <-]. rewrite (utf8_decode_encode_char _ _ _ Hu).
    now rewrite (IH us' eq_refl).
Qed.

Lemma utf8_encode_scalars (s : str) :
  is_Some (utf8_encode s) <-> Forall (fun c => is_scalar c = true) s.
Proof.
  induction s as [|c s IH]; cbn [utf8_encode].
  - split; [constructor | by eexists].
  - rewrite Forall_cons_iff, <- IH, <- utf8_encode_char_scalar.
    destruct (utf8_encode_char c), (utf8_encode s); split.
    all: try (intros _; split; by eexists).
    all: try (intros _; by eexists).
    all: try (intros [? [=]]).
    all: intros [[? ?] [? ?]]; discriminate.
Qed.

(** One step of the decoder consumes the code units of one scalar value. *)
Lemma utf8_decode_step (b0 : Z) (t0 : list Z) (s : str) :
  utf8_decode (b0 :: t0) = Some s ->
  exists c u rest s',
    s = c :: s' /\ b0 :: t0 = u ++ rest /\ utf8_encode_char c = Some u /\
    utf8_decode rest = Some s' /\ (length rest < length (b0 :: t0))%nat.
Proof.
  cbn [utf8_decode].
  destruct (Z.ltb_spec b0 0); [discriminate|].
  destruct (Z.ltb_spec b0 0x80).
  { intros (s' & Hs' & ->)%fmap_Some.
    exists b0, [b0], t0, s'. repeat split; auto.
    unfold utf8_encode_char. now decide_cmp. }
  destruct (Z.ltb_spec b0 0xC2); [discriminate|].
  destruct (Z.ltb_spec b0 0xE0).
  { destruct t0 as [|b1 t1]; [discriminate|].
    destruct (is_cont b1) eqn:Hc1; [|discriminate].
    unfold is_cont in Hc1. bool_hyps.
    intros (s' & Hs' & ->)%fmap_Some.
    eexists _, [b0; b1], t1, s'. repeat split; auto; [|cbn; lia].
    unfold utf8_encode_char. decide_cmp. do 3 f_equal; lia. }
  destruct (Z.ltb_spec b0 0xF0).
  { destruct t0 as [|b1 [|b2 t2]]; try discriminate.
    cbv zeta.
    destruct (is_cont b1) eqn:Hc1; [|discriminate].
    destruct (is_cont b2) eqn:Hc2; [|discriminate].
    cbn [andb].
    destruct (Z.leb_spec 0x800 ((b0 - 224) * 4096 + (b1 - 128) * 64 + (b2 - 128)));
      [|discriminate].
    cbn [andb].
    destruct (is_surrogate _) eqn:Hsur; [discriminate|]. cbn [negb].
    unfold is_cont in Hc1, Hc2. bool_hyps.
    intros (s' & Hs' & ->)%fmap_Some.
    eexists _, [b0; b1; b2], t2, s'. repeat split; auto; [|cbn; lia].
    unfold utf8_encode_char. rewrite Hsur. decide_cmp. do 4 f_equal; lia. }
  destruct (Z.ltb_spec b0 0xF5); [|discriminate].
  destruct t0 as [|b1 [|b2 [|b3 t3]]]; try discriminate.
  cbv zeta.
  destruct (is_cont b1) eqn:Hc1; [|discriminate].
  destruct (is_cont b2) eqn:Hc2; [|discriminate].
  destruct (is_cont b3) eqn:Hc3; [|discriminate].
  cbn [andb].
  match goal with |- context [0x10000 <=? ?c] =>
    destruct (Z.leb_spec 0x10000 c); [|discriminate];
    destruct (Z.ltb_spec c 0x110000); [|discriminate] end.
  cbn [andb].
  unfold is_cont in Hc1, Hc2, Hc3. bool_hyps.
  intros (s' & Hs' & ->)%fmap_Some.
  eexists _, [b0; b1; b2; b3], t3, s'. repeat split; auto; [|cbn; lia].
  unfold utf8_encode_char. decide_cmp. do 5 f_equal; lia.
Qed.

Lemma utf8_encode_decode (bs : list Z) (s : str) :
  utf8_decode bs = Some s -> utf8_encode s = Some bs.
Proof.
  remember (length bs) as n eqn:Hn. revert bs s Hn.
  induction n as [n IH] using lt_wf_ind. intros [|b0 t0] s Hn.
  - now intros [= <-].
  - intros (c & u & rest & s' & -> & Hbs & Hu & Hrest & Hlen)%utf8_decode_step.
    cbn [utf8_encode]. rewrite Hu.
    rewrite (IH (length rest) ltac:(lia) rest s' eq_refl Hrest).
    now rewrite Hbs.
Qed.

(** The decoder accepts exactly the encodings of texts. *)
Theorem utf8_decode_iff (bs : list Z) (s : str) :
  utf8_decode bs = Some s <-> utf8_encode s = Some bs.
Proof. split; [apply utf8_encode_decode | apply utf8_decode_encode]. Qed.

(** ** The codec *)

Section CodecFacts.
Context `{Platform}.

(** The value of [obscure_code] is that of its [try] block: the handler
    logs and raises again. *)
Lemma obscure_code_value (code : pyval) (seed : Z) (w : world) :
  (obscure_code code seed w).1 = obscure_code_body code seed.
Proof.
  unfold obscure_code, try_except, lift.
  destruct (obscure_code_body code seed) as [C|e]; [reflexivity|].
  now destruct (is_Exception e).
Qed.

Lemma obscure_code_Ok (code : pyval) (seed : Z) (w : world) (C : bytes) :
  obscure_code_body code seed = Ok C -> obscure_code code seed w = (Ok C, w).
Proof. unfold obscure_code, try_except, lift. now intros ->. Qed.

Lemma deobscure_code_value (code : pyval) (seed : Z) (w : world) :
  (deobscure_code code seed w).1 = deobscure_code_body code seed.
Proof.
  unfold deobscure_code, try_except, lift.
  destruct (deobscure_code_body code seed) as [P|e]; [reflexivity|].
  now destruct (is_Exception e).
Qed.

Lemma deobscure_code_Ok (code : pyval) (seed : Z) (w : world) (P : str) :
  deobscure_code_body code seed = Ok P -> deobscure_code code seed w = (Ok P, w).
Proof. unfold deobscure_code, try_except, lift. now intros ->. Qed.

End CodecFacts.

Lemma shift_up_range (s : Z) (bs : list Z) : Forall in_byte_range (shift_up s bs).
Proof.
  unfold shift_up. apply Forall_map, Forall_forall. intros b _.
  unfold in_byte_range. cbn. lia.
Qed.

Lemma map_byte_to_Z_range (b : bytes) : Forall in_byte_range (map byte_to_Z b).
Proof. apply Forall_map, Forall_forall. intros x _. apply byte_to_Z_range. Qed.

(** The body of [obscure_code] on a string with UTF-8 encoding [us]. *)
Lemma obscure_code_body_encoded (P : str) (s : Z) (us : list Z) :
  utf8_encode P = Some us ->
  obscure_code_body (VStr P) s = Ok (map byte_of (shift_up s us)).
Proof.
  intros Hus. unfold obscure_code_body, str_encode. rewrite Hus. cbn.
  rewrite map_map.
  replace (map (fun b => (byte_to_Z (byte_of b) + s) mod 256) us)
    with (shift_up s us).
  - apply bytes_ctor_in_range, shift_up_range.
  - apply map_ext_Forall. apply utf8_encode_range in Hus.
    eapply Forall_impl; [exact Hus|].
    intros b Hb. cbn. now destruct (byte_of_Z_in_range b Hb) as [_ ->].
Qed.

Lemma obscure_code_body_unencodable (P : str) (s : Z) :
  utf8_encode P = None -> obscure_code_body (VStr P) s = Raise UnicodeEncodeError.
Proof. intros Hus. unfold obscure_code_body, str_encode. now rewrite Hus. Qed.

(** The body of [deobscure_code] on bytes: the shifted bytes, decoded. *)
Lemma deobscure_code_body_bytes (C : bytes) (s : Z) :
  deobscure_code_body (VBytes C) s
  = bytes_decode (map (fun b => byte_of ((byte_to_Z b - s) mod 256)) C).
Proof.
  unfold deobscure_code_body.
  rewrite (bytes_ctor_in_range (map (fun b => (byte_to_Z b - s) mod 256) C)).
  - cbn. now rewrite map_map.
  - apply Forall_map, Forall_forall. intros b _. unfold in_byte_range. cbn. lia.
Qed.

Lemma deobscure_code_body_decode (C : bytes) (s : Z) :
  deobscure_code_body (VBytes C) s
  = match utf8_decode (map (fun b => (byte_to_Z b - s) mod 256) C) with
    | Some P => Ok P
    | None => Raise UnicodeDecodeError
    end.
Proof.
  rewrite deobscure_code_body_bytes. unfold bytes_decode.
  rewrite map_map.
  rewrite (map_ext _ (fun b => (byte_to_Z b - s) mod 256)); [reflexivity|].
  intros b. apply byte_of_Z_in_range. lia.
Qed.

(** Shifting up and then down by the same seed gives the byte back. *)
Lemma unshift_shift (s : Z) (us : list Z) :
  Forall in_byte_range us ->
  map (fun b => (byte_to_Z b - s) mod 256) (map byte_of (shift_up s us)) = us.
Proof.
  intros Hus. unfold shift_up. rewrite !map_map.
  rewrite <- (map_id us) at 2. apply map_ext_Forall.
  eapply Forall_impl; [exact Hus|]. intros b Hb. cbn. unfold in_byte_range in Hb.
  destruct (byte_of_Z_in_range ((b + s) mod 256)) as [_ ->]; lia.
Qed.

Lemma floored_mod_normalises (a : Z) :
  a mod 256 = Z.rem (Z.rem a 256 + 256) 256.
Proof.
  pose proof (Z.rem_bound_abs a 256).
  pose proof (Z.quot_rem a 256 ltac:(lia)).
  pose proof (Z.rem_sign_nz a 256 ltac:(lia)).
  assert (Hr : -256 < Z.rem a 256 < 256) by lia.
  rewrite Z.rem_mod_nonneg by lia.
  assert (Z.rem a 256 = a - 256 * (a ÷ 256)) as -> by lia.
  lia.
Qed.

Lemma roundtrip_body (P : str) (s : Z) (us : list Z) :
  utf8_encode P = Some us ->
  deobscure_code_body (VBytes (map byte_of (shift_up s us))) s = Ok P.
Proof.
  intros Hus. rewrite deobscure_code_body_decode.
  rewrite unshift_shift by (eapply utf8_encode_range, Hus).
  now rewrite (utf8_decode_encode _ _ Hus).
Qed.

Lemma text_encodable (P : str) : text P -> exists us, utf8_encode P = Some us.
Proof. intros HP. now apply utf8_encode_scalars in HP as [us Hus]; exists us. Qed.

Section CodecClaims.
Context `{Platform}.

(** C1. Round trip: for every text [P] and every seed in [1000, 9999],
    [obscure_code] returns a byte sequence, and [deobscure_code] of that
    sequence with the same seed returns [P]; the bytes that are decoded
    are the UTF-8 encoding of [P]. *)
Theorem deobscure_obscure_roundtrip (P : str) (s : Z) (w1 w2 : world) :
  text P -> 1000 <= s <= 9999 ->
  exists C,
    obscure_code (VStr P) s w1 = (Ok C, w1)
    /\ utf8_encode P = Some (map (fun b => (byte_to_Z b - s) mod 256) C)
    /\ deobscure_code (VBytes C) s w2 = (Ok P, w2).
Proof.
  intros (us & Hus)%text_encodable _.
  exists (map byte_of (shift_up s us)). split; [|split].
  - apply obscure_code_Ok, obscure_code_body_encoded, Hus.
  - rewrite unshift_shift; [exact Hus | eapply utf8_encode_range, Hus].
  - apply deobscure_code_Ok, roundtrip_body, Hus.
Qed.

(** C2. [obscure_code] returns the UTF-8 encoding of the text with every
    byte [b] replaced with [(b + s) mod 256]: every byte of the result is
    in [0, 255], the result is as long as the encoding, and the empty
    text gives the empty byte sequence. *)
Theorem obscure_code_shifts_encoding (P : str) (s : Z) (w : world) (us : list Z) :
  utf8_encode P = Some us ->
  exists C,
    obscure_code (VStr P) s w = (Ok C, w)
    /\ map byte_to_Z C = shift_up s us
    /\ Forall (fun c => 0 <= byte_to_Z c <= 255) C
    /\ length C = length us
    /\ obscure_code (VStr []) s w = (Ok [], w).
Proof.
  intros Hus. exists (map byte_of (shift_up s us)). repeat split.
  - apply obscure_code_Ok, obscure_code_body_encoded, Hus.
  - apply map_byte_to_Z_of, shift_up_range.
  - apply Forall_forall. intros c _. pose proof (byte_to_Z_range c). lia.
  - unfold shift_up. now rewrite !length_map.
Qed.

(** C3. [deobscure_code] maps every byte [b] to [(b - s) mod 256], the
    floored remainder: it lies in [0, 255] and differs from [b - s] by a
    multiple of 256, whatever the seed; it is what a truncating remainder
    gives once 256 is added and the remainder taken again.  The result is
    the UTF-8 decoding of these bytes. *)
Theorem deobscure_code_floored_mod (C : bytes) (s : Z) (w : world) :
  let shifted := map (fun b => (byte_to_Z b - s) mod 256) C in
  Forall (fun r => 0 <= r <= 255) shifted
  /\ Forall2 (fun b r => exists q, byte_to_Z b - s = 256 * q + r
                         /\ r = Z.rem (Z.rem (byte_to_Z b - s) 256 + 256) 256)
             C shifted
  /\ (deobscure_code (VBytes C) s w).1
     = match utf8_decode shifted with
       | Some P => Ok P
       | None => Raise UnicodeDecodeError
       end.
Proof.
  cbv zeta. split; [|split].
  - apply Forall_map, Forall_forall. intros b _. cbn. lia.
  - induction C as [|b C IH]; cbn [map]; constructor; [|exact IH].
    exists ((byte_to_Z b - s) / 256). split; [lia|].
    apply floored_mod_normalises.
  - now rewrite deobscure_code_value, deobscure_code_body_decode.
Qed.

(** C4. [deobscure_code] raises a decoding error exactly when the bytes of
    [C] shifted down by [s mod 256] are not valid UTF-8; when they are the
    encoding of a text, it returns that text; it raises nothing else. *)
Theorem deobscure_code_raises_iff (C : bytes) (s : Z) (w : world) :
  ((deobscure_code (VBytes C) s w).1 = Raise UnicodeDecodeError
   <-> ~ valid_utf8 (shift_down s C))
  /\ (forall P, utf8_encode P = Some (shift_down s C) ->
        deobscure_code (VBytes C) s w = (Ok P, w))
  /\ (forall e, (deobscure_code (VBytes C) s w).1 = Raise e ->
        e = UnicodeDecodeError).
Proof.
  assert (Hshift : shift_down s C = map (fun b => (byte_to_Z b - s) mod 256) C).
  { unfold shift_down. apply map_ext. intros b. apply Zminus_mod_idemp_r. }
  rewrite deobscure_code_value, deobscure_code_body_decode, Hshift.
  split; [|split].
  - destruct (utf8_decode _) as [P|] eqn:Hdec.
    + split; [discriminate|]. intros Hnot. exfalso. apply Hnot.
      exists P. now apply utf8_decode_iff.
    + split; [|reflexivity]. intros _ [P HP].
      apply utf8_decode_iff in HP. congruence.
  - intros P HP. apply deobscure_code_Ok.
    rewrite deobscure_code_body_decode.
    now apply utf8_decode_iff in HP as ->.
  - intros e. destruct (utf8_decode _); [discriminate|]. now intros [= <-].
Qed.

(** C5. The transform depends on the seed modulo 256 only:
    [obscure_code P s] and [obscure_code P (s + 256)] are the same, and so
    are the results for any two seeds congruent modulo 256. *)
Theorem obscure_code_seed_mod_256 (P : str) (s : Z) (w : world) :
  obscure_code (VStr P) s w = obscure_code (VStr P) (s + 256) w
  /\ forall s', s mod 256 = s' mod 256 ->
       obscure_code (VStr P) s w = obscure_code (VStr P) s' w.
Proof.
  assert (Hcong : forall s', s mod 256 = s' mod 256 ->
            obscure_code (VStr P) s w = obscure_code (VStr P) s' w).
  { intros s' Hs. unfold obscure_code. f_equal.
    unfold obscure_code_body. destruct (str_encode P) as [bs|e]; [|reflexivity].
    cbn. do 2 f_equal. apply map_ext. intros b.
    rewrite <- (Zplus_mod_idemp_r s), <- (Zplus_mod_idemp_r s'). now rewrite Hs. }
  split; [|exact Hcong].
  apply Hcong. rewrite <- (Z.mul_1_l 256) at 2. now rewrite Z_mod_plus_full.
Qed.

(** C10. A seed that is a multiple of 256 obscures nothing:
    [obscure_code] returns the UTF-8 encoding of the text unchanged and
    [deobscure_code] turns it back into the text.  The multiples of 256
    from 1024 to 9984 are seeds that the boundary accepts. *)
Theorem multiple_of_256_is_identity (P : str) (s : Z) (w : world) (us : list Z) :
  s mod 256 = 0 -> utf8_encode P = Some us ->
  obscure_code (VStr P) s w = (Ok (map byte_of us), w)
  /\ str_encode P = Ok (map byte_of us)
  /\ deobscure_code (VBytes (map byte_of us)) s w = (Ok P, w)
  /\ forall k, 4 <= k <= 39 ->
       (256 * k) mod 256 = 0 /\ checked_seed (SeedInt (256 * k)) = Ok (256 * k).
Proof.
  intros Hs Hus.
  assert (Hid : shift_up s us = us).
  { unfold shift_up. rewrite <- (map_id us) at 2. apply map_ext_Forall.
    apply utf8_encode_range in Hus. eapply Forall_impl; [exact Hus|].
    intros b Hb. cbn. unfold in_byte_range in Hb.
    rewrite <- Zplus_mod_idemp_r, Hs, Z.add_0_r. apply Z.mod_small. lia. }
  split; [|split; [|split]].
  - rewrite <- Hid at 1. apply obscure_code_Ok, obscure_code_body_encoded, Hus.
  - unfold str_encode. now rewrite Hus.
  - rewrite <- Hid at 1. apply deobscure_code_Ok, roundtrip_body, Hus.
  - intros k Hk. split.
    + rewrite Z.mul_comm. apply Z_mod_mult.
    + unfold checked_seed. cbn.
      destruct (Z.leb_spec 1000 (256 * k)); [|lia].
      destruct (Z.leb_spec (256 * k) 9999); [|lia]. reflexivity.
Qed.

End CodecClaims.

(** C9. Determinism: the value that [obscure_code] and [deobscure_code]
    return is a function of the content and the seed; neither the state of
    the log, the files, the terminal or the clock nor the platform has a
    part in it. *)
Theorem codec_deterministic (P1 P2 : Platform) (code : pyval) (seed : Z)
    (w1 w2 : world) :
  (@obscure_code P1 code seed w1).1 = (@obscure_code P2 code seed w2).1
  /\ (@deobscure_code P1 code seed w1).1 = (@deobscure_code P2 code seed w2).1.
Proof.
  split.
  - now rewrite !obscure_code_value.
  - now rewrite !deobscure_code_value.
Qed.

(** ** Further properties of the codec *)

Lemma obscure_code_body_Ok (P : str) (s : Z) (C : bytes) :
  obscure_code_body (VStr P) s = Ok C ->
  exists us, utf8_encode P = Some us /\ C = map byte_of (shift_up s us).
Proof.
  intros HC. destruct (utf8_encode P) as [us|] eqn:Hus.
  - exists us. split; [reflexivity|].
    rewrite (obscure_code_body_encoded _ s _ Hus) in HC. now injection HC.
  - now rewrite (obscure_code_body_unencodable _ s Hus) in HC.
Qed.

Lemma deobscure_code_body_Ok (C : bytes) (s : Z) (P : str) :
  deobscure_code_body (VBytes C) s = Ok P ->
  utf8_encode P = Some (map (fun b => (byte_to_Z b - s) mod 256) C).
Proof.
  rewrite deobscure_code_body_decode.
  destruct (utf8_decode _) as [P'|] eqn:Hdec; [|discriminate].
  intros [= <-]. now apply utf8_encode_decode.
Qed.

Lemma utf8_encode_nonempty (P : str) (us : list Z) :
  utf8_encode P = Some us -> P <> [] -> us <> [].
Proof.
  destruct P as [|c P]; [congruence|]. cbn [utf8_encode].
  destruct (utf8_encode_char c) as [u|] eqn:Hu; [|discriminate].
  destruct (utf8_encode P) as [us'|]; [|discriminate].
  intros [= <-] _. unfold utf8_encode_char in Hu.
  repeat match type of Hu with
         | (if ?b then _ else _) = _ => destruct b
         end; try discriminate; now injection Hu as <-.
Qed.

Section CodecExtras.
Context `{Platform}.

(** The other round trip: whenever [deobscure_code] returns a text for a
    byte sequence, [obscure_code] of that text with the same seed returns
    the byte sequence. *)
Theorem obscure_deobscure_roundtrip (C : bytes) (s : Z) (P : str) (w1 w2 : world) :
  (deobscure_code (VBytes C) s w1).1 = Ok P ->
  obscure_code (VStr P) s w2 = (Ok C, w2).
Proof.
  rewrite deobscure_code_value. intros HP%deobscure_code_body_Ok.
  apply obscure_code_Ok. rewrite (obscure_code_body_encoded _ _ _ HP).
  f_equal. unfold shift_up. rewrite !map_map.
  rewrite <- (map_id C) at 2. apply map_ext. intros b.
  pose proof (byte_to_Z_range b).
  replace (((byte_to_Z b - s) mod 256 + s) mod 256) with (byte_to_Z b) by lia.
  apply byte_of_to_Z.
Qed.

(** A wrong seed does not go unnoticed: if [deobscure_code] with the seed
    [s2] gives back a non-empty text obscured with the seed [s], the two
    seeds are congruent modulo 256. *)
Theorem wrong_seed_detected (P : str) (s s2 : Z) (C : bytes) (w1 w2 : world) :
  P <> [] ->
  (obscure_code (VStr P) s w1).1 = Ok C ->
  (deobscure_code (VBytes C) s2 w2).1 = Ok P ->
  s mod 256 = s2 mod 256.
Proof.
  intros HP. rewrite obscure_code_value, deobscure_code_value.
  intros (us & Hus & ->)%obscure_code_body_Ok Hback%deobscure_code_body_Ok.
  rewrite Hus in Hback. injection Hback as Hback.
  pose proof (utf8_encode_range _ _ Hus) as Hrange.
  pose proof (utf8_encode_nonempty _ _ Hus HP) as Hne.
  destruct us as [|u us]; [congruence|].
  apply Forall_cons in Hrange as [Hu _]. unfold in_byte_range in Hu.
  cbn [shift_up map] in Hback. injection Hback as Hhead _.
  destruct (byte_of_Z_in_range ((u + s) mod 256)) as [_ Hb]; [lia|].
  rewrite Hb in Hhead. lia.
Qed.

End CodecExtras.

(** ** Paths *)

Lemma endswith_true (s suffix : str) :
  endswith s suffix = true <-> exists k, s = k ++ suffix.
Proof. unfold endswith. now rewrite bool_decide_eq_true. Qed.

Lemma rfind_from_absent (ch : Z) (r : str) (i found : Z) :
  ch ∉ r -> rfind_from ch r i found = found.
Proof.
  revert i found. induction r as [|x r IH]; intros i found Hr; [reflexivity|].
  cbn [rfind_from]. apply not_elem_of_cons in Hr as [Hx Hr].
  destruct (Z.eqb_spec x ch); [congruence|]. now apply IH.
Qed.

Lemma rfind_from_last (ch : Z) (q r : str) (i found : Z) :
  ch ∉ r -> rfind_from ch (q ++ ch :: r) i found = i + Z.of_nat (length q).
Proof.
  intros Hr. revert i found. induction q as [|x q IH]; intros i found.
  - cbn [app rfind_from length]. rewrite Z.eqb_refl.
    rewrite rfind_from_absent by exact Hr. lia.
  - cbn [app rfind_from length]. rewrite IH. lia.
Qed.

Lemma rfind_dot_py (q : str) : rfind (q ++ lit ".py") extsep = Z.of_nat (length q).
Proof.
  unfold rfind. change (lit ".py") with (extsep :: [112; 121]).
  rewrite rfind_from_last; [lia|].
  unfold extsep. intros Hin. repeat (apply elem_of_cons in Hin as [Hin|Hin]; [lia|]).
  now apply elem_of_nil in Hin.
Qed.

(** What [os.path.splitext] returns for a path ending in [.py]. *)
Lemma splitext_dot_py (q : str) :
  os_path_splitext (q ++ lit ".py") = (q, lit ".py")
  \/ os_path_splitext (q ++ lit ".py") = (q ++ lit ".py", []).
Proof.
  unfold os_path_splitext. rewrite rfind_dot_py.
  unfold slice_to, slice_from at 2. rewrite Nat2Z.id.
  rewrite take_app_length, drop_app_length.
  destruct (_ && _); [now left | now right].
Qed.

Lemma splitext_form (p name ext : str) :
  endswith p (lit ".py") = true ->
  os_path_splitext p = (name, ext) -> ext <> [] ->
  ext = lit ".py" /\ p = name ++ ext.
Proof.
  intros [q ->]%endswith_true Hsplit Hext.
  destruct (splitext_dot_py q) as [Heq|Heq]; rewrite Heq in Hsplit;
    injection Hsplit as <- <-; [now split | congruence].
Qed.

Lemma join_endswith (a b suffix : str) :
  endswith b suffix = true -> endswith (os_path_join a b) suffix = true.
Proof.
  intros [k ->]%endswith_true. apply endswith_true. unfold os_path_join.
  destruct (startswith _ _); [by exists k|].
  destruct (_ || _).
  - exists (a ++ k). now rewrite app_assoc.
  - exists (a ++ [sep] ++ k). now rewrite <- !app_assoc.
Qed.

Section PathFacts.
Context `{Platform}.

Lemma resolve_path_endswith (cwd file_path suffix : str) :
  endswith file_path suffix = true ->
  endswith (resolve_path cwd file_path) suffix = true.
Proof.
  intros Hend. unfold resolve_path.
  destruct (str_eqb _ _); [now apply join_endswith | exact Hend].
Qed.

(** The output path keeps the stem and the extension of the input. *)
Lemma new_path_form (p name ext : str) :
  endswith p (lit ".py") = true ->
  os_path_splitext p = (name, ext) -> ext <> [] ->
  new_path p (lit "o") = name ++ lit "_obscure" ++ ext
  /\ new_path p (lit "d") = name ++ lit "_deobscure" ++ ext.
Proof.
  intros Hend Hsplit Hext.
  destruct (splitext_form _ _ _ Hend Hsplit Hext) as [-> _].
  unfold new_path. rewrite Hsplit. now split.
Qed.
End PathFacts.

(** ** [int] of a string *)

Lemma four_digits_inv (s : str) :
  four_digits s ->
  exists d1 d2 d3 d4, s = [d1; d2; d3; d4]
    /\ 48 <= d1 <= 57 /\ 48 <= d2 <= 57 /\ 48 <= d3 <= 57 /\ 48 <= d4 <= 57.
Proof.
  intros [Hlen Hall].
  destruct s as [|d1 [|d2 [|d3 [|d4 [|? ?]]]]]; try discriminate.
  exists d1, d2, d3, d4. split; [reflexivity|].
  unfold is_digit in Hall.
  repeat (apply Forall_cons in Hall as [?%andb_prop Hall]).
  repeat match goal with H : _ /\ _ |- _ => destruct H end.
  bool_hyps. lia.
Qed.

Section IntFacts.
Context `{Platform}.

(** Four decimal digits are read as the number they spell. *)
Lemma int_of_four_digits (d1 d2 d3 d4 : Z) :
  48 <= d1 <= 57 -> 48 <= d2 <= 57 -> 48 <= d3 <= 57 -> 48 <= d4 <= 57 ->
  int_of_str [d1; d2; d3; d4]
  = Ok ((d1 - 48) * 1000 + (d2 - 48) * 100 + (d3 - 48) * 10 + (d4 - 48)).
Proof.
  intros H1 H2 H3 H4. unfold int_of_str. cbn [transform_decimal_and_space].
  decide_cmp. unfold long_from_string. cbn [lstrip_space].
  unfold ascii_isspace. decide_cmp.
  replace (d1 =? 32) with false by (symmetry; apply Z.eqb_neq; lia).
  cbn [orb andb].
  assert (Hsign : split_sign [d1; d2; d3; d4] = (1, [d1; d2; d3; d4])).
  { unfold split_sign. destruct d1 as [|p|p]; try lia.
    do 6 (destruct p as [p|p|]; try reflexivity; try lia). }
  rewrite Hsign. clear Hsign.
  assert (Hstart : startswith [d1; d2; d3; d4] [95] = false).
  { unfold startswith. apply bool_decide_eq_false. intros [k Hk].
    injection Hk as Hk _. lia. }
  rewrite Hstart. cbn [scan_digits]. unfold is_digit. decide_cmp.
  cbn [andb].
  replace (d4 =? 95) with false by (symmetry; apply Z.eqb_neq; lia).
  replace (0 + 1 + 1 + 1 + 1) with 4 by lia.
  change (640 <? 4) with false. cbn [andb].
  change (4 =? 0) with false. cbn [lstrip_space].
  f_equal. lia.
Qed.
End IntFacts.

(** ** Running the monad *)

Lemma bind_Ok {A B} (m : M A) (f : A -> M B) (w w' : world) (a : A) :
  m w = (Ok a, w') -> (m ≫= f) w = f a w'.
Proof. unfold mbind, M_bind. now intros ->. Qed.

Lemma bind_Raise {A B} (m : M A) (f : A -> M B) (w w' : world) (e : exn) :
  m w = (Raise e, w') -> (m ≫= f) w = (Raise e, w').
Proof. unfold mbind, M_bind. now intros ->. Qed.

Lemma try_except_bind_Ok {A B} (m : M A) (f : A -> M B) (h : exn -> M B)
    (w w' : world) (a : A) :
  m w = (Ok a, w') -> try_except (m ≫= f) h w = try_except (f a) h w'.
Proof. unfold try_except. intros Hm. now rewrite (bind_Ok _ _ _ _ _ Hm). Qed.

Lemma try_except_Ok {A} (m : M A) (h : exn -> M A) (w w' : world) (a : A) :
  m w = (Ok a, w') -> try_except m h w = (Ok a, w').
Proof. unfold try_except. now intros ->. Qed.

(** ** What a computation may write *)

Lemma keeps_writes {A} (cwd q : str) (m : M A) : keeps m -> writes cwd q m.
Proof.
  intros Hm w Hw. destruct (Hm w) as [Hc Hf]. split; [congruence|].
  intros k _. now rewrite Hf.
Qed.

Lemma keeps_bind {A B} (m : M A) (f : A -> M B) :
  keeps m -> (forall a, keeps (f a)) -> keeps (m ≫= f).
Proof.
  intros Hm Hf w. specialize (Hm w). unfold mbind, M_bind.
  destruct (m w) as [[a|e] w1]; cbn [snd] in *; [|exact Hm].
  destruct (Hf a w1) as [Hc Hfs]. split; [now rewrite Hc|now rewrite Hfs].
Qed.

Lemma writes_bind {A B} (cwd q : str) (m : M A) (f : A -> M B) :
  writes cwd q m ->
  (forall w a w', w_cwd w = cwd -> m w = (Ok a, w') -> writes cwd q (f a)) ->
  writes cwd q (m ≫= f).
Proof.
  intros Hm Hf w Hw. specialize (Hm w Hw). specialize (Hf w).
  unfold mbind, M_bind.
  destruct (m w) as [[a|e] w1]; cbn [snd] in *; [|exact Hm].
  destruct Hm as [Hc1 Hk1].
  destruct (Hf a w1 Hw eq_refl w1 Hc1) as [Hc2 Hk2]. split; [exact Hc2|].
  intros k Hk. now rewrite Hk2, Hk1.
Qed.

Lemma writes_try_except {A} (cwd q : str) (m : M A) (h : exn -> M A) :
  writes cwd q m -> (forall e, writes cwd q (h e)) -> writes cwd q (try_except m h).
Proof.
  intros Hm Hh w Hw. specialize (Hm w Hw). unfold try_except.
  destruct (m w) as [[a|e] w1]; cbn [snd] in *; [exact Hm|].
  destruct (is_Exception e); [|exact Hm].
  destruct Hm as [Hc1 Hk1]. destruct (Hh e w1 Hc1) as [Hc2 Hk2].
  split; [exact Hc2|]. intros k Hk. now rewrite Hk2, Hk1.
Qed.

Lemma keeps_try_except {A} (m : M A) (h : exn -> M A) :
  keeps m -> (forall e, keeps (h e)) -> keeps (try_except m h).
Proof.
  intros Hm Hh w. specialize (Hm w). unfold try_except.
  destruct (m w) as [[a|e] w1]; cbn [snd] in *; [exact Hm|].
  destruct (is_Exception e); [|exact Hm].
  destruct Hm as [Hc1 Hk1]. destruct (Hh e w1) as [Hc2 Hk2].
  split; congruence.
Qed.

Lemma keeps_ret {A} (a : A) : keeps (mret a : M A).
Proof. now intros w. Qed.

Lemma keeps_lift {A} (r : result A) : keeps (lift r).
Proof. now intros w. Qed.

Lemma keeps_raise {A} (e : exn) : keeps (raise e : M A).
Proof. now intros w. Qed.

Lemma keeps_logging_log (l : level) (msg : str) : keeps (logging_log l msg).
Proof. now intros w. Qed.

Lemma keeps_print (msg : str) : keeps (print msg).
Proof. now intros w. Qed.

Lemma keeps_input (prompt : str) : keeps (input prompt).
Proof. intros w. unfold input. now destruct (w_stdin w). Qed.

Lemma keeps_time_time : keeps time_time.
Proof. now intros w. Qed.

Lemma keeps_os_getcwd : keeps os_getcwd.
Proof. now intros w. Qed.

Lemma keeps_os_path_isfile (p : str) : keeps (os_path_isfile p).
Proof. now intros w. Qed.

Lemma keeps_os_path_exists (p : str) : keeps (os_path_exists p).
Proof. now intros w. Qed.

Lemma keeps_read_binary (p : str) : keeps (read_binary p).
Proof. intros w. unfold read_binary. now destruct (_ !! _) as [[]|]. Qed.

Lemma writes_open_for_write (cwd q : str) : writes cwd q (open_for_write q).
Proof.
  intros w Hw. unfold open_for_write.
  destruct (_ !! _) as [[]|] eqn:Hq; cbn; split; auto; intros k Hk;
    rewrite Hw; now rewrite lookup_insert_ne.
Qed.

Lemma writes_store (cwd q : str) (data : bytes) : writes cwd q (store q data).
Proof.
  intros w Hw. cbn. split; [exact Hw|]. intros k Hk.
  rewrite Hw. now rewrite lookup_insert_ne.
Qed.

Create HintDb keeps.

#[export] Hint Resolve keeps_ret keeps_lift keeps_raise keeps_logging_log
  keeps_print keeps_input keeps_time_time keeps_os_getcwd keeps_os_path_isfile
  keeps_os_path_exists keeps_read_binary : keeps.

(** Goals [keeps m]: binds, handlers and tests are taken apart; the leaves
    are in the hint database. *)
Ltac solve_keeps :=
  repeat first
    [ solve [auto with keeps]
    | apply keeps_bind; [ | intro ]
    | apply keeps_try_except; [ | intro ]
    | match goal with
      | |- keeps (if ?b then _ else _) => destruct b
      | |- keeps (match ?x with _ => _ end) => destruct x
      end ].

Section BoundaryFrames.
Context `{Platform}.

Lemma keeps_obscure_code (code : pyval) (seed : Z) : keeps (obscure_code code seed).
Proof. unfold obscure_code. solve_keeps. Qed.

Lemma keeps_deobscure_code (code : pyval) (seed : Z) : keeps (deobscure_code code seed).
Proof. unfold deobscure_code. solve_keeps. Qed.

Lemma keeps_calculate_md5 (p : str) : keeps (calculate_md5 p).
Proof. unfold calculate_md5. solve_keeps. Qed.

Lemma keeps_validate_file_path (p : str) : keeps (validate_file_path p).
Proof. unfold validate_file_path. solve_keeps. Qed.

Lemma keeps_read_content (p mode : str) : keeps (read_content p mode).
Proof. unfold read_content. solve_keeps. Qed.

Lemma keeps_transform (p mode : str) (content : pyval) (seed : Z) :
  keeps (transform p mode content seed).
Proof. unfold transform, obscure_code, deobscure_code. solve_keeps. Qed.

Lemma keeps_confirm_overwrite (q : str) : keeps (confirm_overwrite q).
Proof. unfold confirm_overwrite. solve_keeps. Qed.

Lemma keeps_report_unexpected (e : exn) : keeps (report_unexpected e).
Proof. unfold report_unexpected. solve_keeps. Qed.

End BoundaryFrames.

#[export] Hint Resolve keeps_obscure_code keeps_deobscure_code keeps_calculate_md5
  keeps_validate_file_path keeps_read_content keeps_transform
  keeps_confirm_overwrite keeps_report_unexpected : keeps.

Section BoundaryWrites.
Context `{Platform}.

(** The path that [transform] returns is [new_path]. *)
Lemma transform_new_path (p mode : str) (content new_content : pyval)
    (seed : Z) (q : str) (w w' : world) :
  transform p mode content seed w = (Ok (new_content, q), w') ->
  q = new_path p mode.
Proof.
  unfold transform, new_path. destruct (str_eqb mode _); unfold mbind, M_bind.
  - destruct (obscure_code content seed w) as [[C|e] w1]; [|discriminate].
    now intros [= _ <- _].
  - destruct (deobscure_code content seed w) as [[C|e] w1]; [|discriminate].
    now intros [= _ <- _].
Qed.

Lemma writes_write_and_report (cwd q mode : str) (new_content : pyval) (start : Z) :
  writes cwd q (write_and_report q mode new_content start).
Proof.
  unfold write_and_report, write_content.
  apply writes_bind.
  { apply writes_bind; [apply writes_open_for_write|]. intros _ _ _ _ _.
    apply writes_bind; [apply keeps_writes; solve_keeps|]. intros _ data _ _ _.
    apply writes_store. }
  intros _ _ _ _ _. apply keeps_writes. solve_keeps.
Qed.

(** [updated_process_file] writes to the output path and nowhere else. *)
Lemma writes_updated_process_file (cwd file_path mode : str) (seed : Z) :
  writes cwd (new_path (resolve_path cwd file_path) mode)
         (updated_process_file file_path seed mode).
Proof.
  unfold updated_process_file.
  apply writes_bind; [apply keeps_writes; solve_keeps|].
  intros _ start _ _ _. apply writes_try_except.
  2:{ intros e. apply keeps_writes. solve_keeps. }
  apply writes_bind; [apply keeps_writes; solve_keeps|].
  intros w c w' Hw [= <- <-]. rewrite Hw.
  apply writes_bind; [apply keeps_writes; solve_keeps|].
  intros _ [|] _ _ _; cbn [negb]; [|apply keeps_writes; solve_keeps].
  apply writes_bind; [apply keeps_writes; solve_keeps|].
  intros _ md5 _ _ _.
  apply writes_bind; [apply keeps_writes; solve_keeps|].
  intros _ _ _ _ _.
  apply writes_bind; [apply keeps_writes; solve_keeps|].
  intros _ content _ _ _.
  apply writes_bind; [apply keeps_writes; solve_keeps|].
  intros w1 [new_content q] w2 _ ->%transform_new_path.
  apply writes_bind; [apply keeps_writes; solve_keeps|].
  intros _ [|] _ _ _; cbn [negb]; [|apply keeps_writes; solve_keeps].
  apply writes_write_and_report.
Qed.

End BoundaryWrites.

(** ** Following one run of [updated_process_file] *)

Section Runs.
Context `{Platform}.

Lemma transform_Ok (p mode : str) (content new_content : pyval) (seed : Z)
    (w : world) :
  codec_value mode content seed = Ok new_content ->
  transform p mode content seed w = (Ok (new_content, new_path p mode), w).
Proof.
  unfold codec_value, transform, new_path.
  destruct (str_eqb mode (lit "o")).
  - destruct (obscure_code_body content seed) as [C|e] eqn:HC; [|discriminate].
    intros [= <-]. now rewrite (bind_Ok _ _ _ _ _ (obscure_code_Ok _ _ w _ HC)).
  - destruct (deobscure_code_body content seed) as [P|e] eqn:HP; [|discriminate].
    intros [= <-]. now rewrite (bind_Ok _ _ _ _ _ (deobscure_code_Ok _ _ w _ HP)).
Qed.

(** With the input in place, readable and transformed without an
    exception, the run arrives at the question about the output path. *)
Lemma updated_process_file_to_prompt (file_path mode : str) (seed : Z) (w : world)
    (raw : bytes) (content new_content : pyval) :
  let p := resolve_path (w_cwd w) file_path in
  w_fs w !! abspath (w_cwd w) p = Some (File raw) ->
  content_of mode raw = Ok content ->
  codec_value mode content seed = Ok new_content ->
  updated_process_file file_path seed mode w
  = try_except
      (proceed ← confirm_overwrite (new_path p mode);
       if negb proceed
       then print (lit "Operation cancelled.")
       else write_and_report (new_path p mode) mode new_content
                             (w_clock w (w_reads w)))
      report_unexpected
      (after_record w (md5_record p (md5_hexdigest raw))).
Proof.
  intros p Hfile Hcontent Hcodec. unfold updated_process_file.
  erewrite bind_Ok by reflexivity.
  erewrite try_except_bind_Ok by reflexivity. cbn [w_cwd]. fold p.
  erewrite try_except_bind_Ok.
  2:{ unfold validate_file_path. erewrite bind_Ok.
      2:{ unfold os_path_isfile. cbn [w_fs w_cwd]. rewrite Hfile. reflexivity. }
      reflexivity. }
  cbn [negb].
  erewrite try_except_bind_Ok.
  2:{ unfold calculate_md5. erewrite bind_Ok.
      2:{ unfold read_binary. cbn [w_fs w_cwd]. rewrite Hfile. reflexivity. }
      reflexivity. }
  erewrite try_except_bind_Ok by reflexivity.
  erewrite try_except_bind_Ok.
  2:{ unfold read_content. erewrite bind_Ok.
      2:{ unfold read_binary. cbn [w_fs w_cwd]. rewrite Hfile. reflexivity. }
      unfold lift. rewrite Hcontent. reflexivity. }
  erewrite try_except_bind_Ok by (apply transform_Ok, Hcodec).
  reflexivity.
Qed.

(** The output path is taken and the answer is not [y]. *)
Lemma confirm_overwrite_declined (q : str) (w : world) (n : node) (line : str)
    (rest : list str) :
  w_fs w !! abspath (w_cwd w) q = Some n ->
  w_stdin w = line :: rest ->
  str_lower line <> lit "y" ->
  confirm_overwrite q w
  = (Ok false, mkWorld (w_fs w) (w_cwd w) (w_log w)
                       (w_stdout w ++ [overwrite_prompt q]) rest
                       (w_clock w) (w_reads w)).
Proof.
  intros Hq Hin Hno. unfold confirm_overwrite.
  erewrite bind_Ok.
  2:{ unfold os_path_exists. rewrite Hq. reflexivity. }
  cbv beta iota. erewrite bind_Ok.
  2:{ unfold input. rewrite Hin. reflexivity. }
  unfold str_eqb. rewrite bool_decide_eq_false_2 by exact Hno. reflexivity.
Qed.

Lemma confirm_overwrite_accepted (q : str) (w : world) (n : node) (line : str)
    (rest : list str) :
  w_fs w !! abspath (w_cwd w) q = Some n ->
  w_stdin w = line :: rest ->
  str_lower line = lit "y" ->
  confirm_overwrite q w
  = (Ok true, mkWorld (w_fs w) (w_cwd w) (w_log w)
                      (w_stdout w ++ [overwrite_prompt q]) rest
                      (w_clock w) (w_reads w)).
Proof.
  intros Hq Hin Hyes. unfold confirm_overwrite.
  erewrite bind_Ok.
  2:{ unfold os_path_exists. rewrite Hq. reflexivity. }
  cbv beta iota. erewrite bind_Ok.
  2:{ unfold input. rewrite Hin. reflexivity. }
  unfold str_eqb. rewrite bool_decide_eq_true_2 by exact Hyes. reflexivity.
Qed.

Lemma confirm_overwrite_absent (q : str) (w : world) :
  w_fs w !! abspath (w_cwd w) q = None ->
  confirm_overwrite q w = (Ok true, w).
Proof.
  intros Hq. unfold confirm_overwrite.
  erewrite bind_Ok.
  2:{ unfold os_path_exists. rewrite Hq. reflexivity. }
  cbv beta iota. reflexivity.
Qed.

(** Writing the output where no directory is in the way. *)
Lemma write_and_report_run (q mode : str) (new_content : pyval) (start : Z)
    (w : world) (data : bytes) :
  w_fs w !! abspath (w_cwd w) q <> Some Dir ->
  payload mode new_content = Ok data ->
  exists w',
    write_and_report q mode new_content start w = (Ok (), w')
    /\ w_fs w' = <[abspath (w_cwd w) q := File data]> (w_fs w)
    /\ w_log w' <> w_log w.
Proof.
  intros Hq Hdata. unfold write_and_report, write_content.
  set (k := abspath (w_cwd w) q).
  assert (Hopen : open_for_write q w
                  = (Ok (), set_fs (<[k := File []]> (w_fs w)) w)).
  { unfold open_for_write. fold k. fold k in Hq.
    destruct (w_fs w !! k) as [[|]|]; congruence. }
  eexists. split; [|split].
  - erewrite bind_Ok.
    2:{ erewrite bind_Ok by exact Hopen.
        erewrite bind_Ok by (unfold lift; rewrite Hdata; reflexivity).
        reflexivity. }
    erewrite bind_Ok.
    2:{ unfold calculate_md5. erewrite bind_Ok.
        2:{ unfold read_binary. cbn [w_fs w_cwd set_fs]. fold k.
            rewrite lookup_insert_eq. reflexivity. }
        reflexivity. }
    erewrite bind_Ok by reflexivity.
    erewrite bind_Ok by reflexivity.
    erewrite bind_Ok by reflexivity.
    reflexivity.
  - cbn [w_fs w_cwd set_fs]. fold k. apply insert_insert_eq.
  - cbn [w_log set_fs]. intros Heq.
    apply (f_equal (@length _)) in Heq. rewrite !length_app in Heq.
    cbn in Heq. lia.
Qed.
End Runs.

(** ** What stays off the disk *)

Lemma silent_bind {A B} (m : M A) (f : A -> M B) :
  silent m -> (forall a, silent (f a)) -> silent (m ≫= f).
Proof.
  intros Hm Hf w. specialize (Hm w). unfold mbind, M_bind.
  destruct (m w) as [[a|e] w1]; cbn [snd] in *; [|exact Hm].
  destruct Hm as [Hfs1 Hlog1]. destruct (Hf a w1) as [Hfs Hlog].
  split; congruence.
Qed.

Lemma silent_ret {A} (a : A) : silent (mret a : M A).
Proof. now intros w. Qed.

Lemma silent_raise {A} (e : exn) : silent (raise e : M A).
Proof. now intros w. Qed.

Lemma silent_print (msg : str) : silent (print msg).
Proof. now intros w. Qed.

Lemma silent_input (prompt : str) : silent (input prompt).
Proof. intros w. unfold input. now destruct (w_stdin w). Qed.

Section BoundaryClaims.
Context `{Platform}.

Lemma silent_interactive_input : silent interactive_input.
Proof.
  unfold interactive_input, sys_exit.
  apply silent_bind; [apply silent_print|]. intros _.
  apply silent_bind; [apply silent_print|]. intros _.
  apply silent_bind; [apply silent_input|]. intros answer.
  destruct (str_eqb _ _); [apply silent_raise|].
  apply silent_bind; [apply silent_input|]. intros file_path.
  destruct (str_eqb _ _); [apply silent_raise|].
  apply silent_bind; [apply silent_input|]. intros seed.
  destruct (str_eqb _ _); [apply silent_raise | apply silent_ret].
Qed.

Lemma silent_resolve_arguments (args : Namespace) : silent (resolve_arguments args).
Proof.
  unfold resolve_arguments.
  destruct (_ && _); [apply silent_ret | apply silent_interactive_input].
Qed.

Lemma checked_seed_Ok (seed : seed_value) (n : Z) :
  checked_seed seed = Ok n <-> int_of_seed seed = Ok n /\ 1000 <= n <= 9999.
Proof.
  unfold checked_seed. destruct (int_of_seed seed) as [m|e]; cbn.
  - destruct (Z.leb_spec 1000 m), (Z.leb_spec m 9999); cbn; split;
      try (intros [= <-]; split; [reflexivity|lia]);
      try discriminate;
      try (intros [[= <-] ?]; first [reflexivity | lia]).
  - split; [discriminate | now intros [? _]].
Qed.

Lemma checked_seed_Raise (seed : seed_value) (e : exn) :
  checked_seed seed = Raise e -> is_ValueError e = true.
Proof.
  unfold checked_seed. destruct seed as [n|s]; cbn.
  - destruct (negb _); [now intros [= <-] | discriminate].
  - unfold int_of_str, long_from_string.
    destruct (split_sign _) as [sign s2].
    destruct (startswith _ _); [now intros [= <-]|].
    destruct (scan_digits _ _ _ _) as [[[v nd] rest]|]; [|now intros [= <-]].
    destruct (_ && _); [now intros [= <-]|].
    destruct (nd =? 0); [now intros [= <-]|].
    destruct (lstrip_space rest); cbn; [|now intros [= <-]].
    destruct (negb _); [now intros [= <-] | discriminate].
Qed.

(** C6, as the code has it.  The seed that [main] checks is the one the
    arguments resolve to: the answer at the seed prompt, or the integer that
    argparse read from the command line.  [main] hands the file to
    [updated_process_file] when [int] reads that seed as an integer from
    1000 to 9999 and the path ends in [.py].  When [int] raises ValueError
    or the value is outside that range, [main] prints an error message and
    returns, and no file and no log record has been written since argparse
    returned; the message is the one about the seed when the path ends in
    [.py], and the one about the extension, which is checked first,
    otherwise.  Every string of exactly four decimal digits is read as the
    number it spells, and is accepted when that number is at least 1000. *)
Theorem main_checks_seed (parse_arguments : M Namespace) (args : Namespace)
    (w w0 w1 : world) (mode file_path : str) (seed : seed_value) :
  parse_arguments w = (Ok args, w0) ->
  resolve_arguments args w0 = (Ok (mode, file_path, seed), w1) ->
  let run := main parse_arguments w in
  let seed_message :=
    lit "Invalid input. The seed must be a four-digit number." in
  let extension_message :=
    lit "Invalid file extension. Please specify a Python file (.py)." in
  let rejected msg :=
    run = print msg w1 /\ w_fs run.2 = w_fs w0 /\ w_log run.2 = w_log w0 in
  (forall n, int_of_seed seed = Ok n -> 1000 <= n <= 9999 ->
     endswith file_path (lit ".py") = true ->
     run = updated_process_file file_path n mode w1)
  /\ ((forall n, int_of_seed seed = Ok n -> ~ 1000 <= n <= 9999) ->
      exists msg,
        rejected msg
        /\ msg = if endswith file_path (lit ".py")
                 then seed_message else extension_message)
  /\ (endswith file_path (lit ".py") = false -> rejected extension_message)
  /\ (forall s, seed = SeedStr s -> four_digits s ->
        exists n, int_of_str s = Ok n /\ 0 <= n <= 9999
          /\ (1000 <= n -> endswith file_path (lit ".py") = true ->
              run = updated_process_file file_path n mode w1)).
Proof.
  intros Hparse Hres run seed_message extension_message rejected.
  assert (Hmain : run = validate_and_run mode file_path seed w1).
  { subst run. unfold main. rewrite (bind_Ok _ _ _ _ _ Hparse).
    now rewrite (bind_Ok _ _ _ _ _ Hres). }
  destruct (silent_resolve_arguments args w0) as [Hfs Hlog].
  rewrite Hres in Hfs, Hlog. cbn [snd] in Hfs, Hlog.
  assert (Hreject : forall msg, run = print msg w1 -> rejected msg).
  { intros msg Hm. split; [exact Hm|]. rewrite Hm. cbn. now split. }
  assert (Hextension : endswith file_path (lit ".py") = false ->
            rejected extension_message).
  { intros Hext. apply Hreject. rewrite Hmain. unfold validate_and_run.
    now rewrite Hext. }
  assert (Haccept : forall n, int_of_seed seed = Ok n -> 1000 <= n <= 9999 ->
            endswith file_path (lit ".py") = true ->
            run = updated_process_file file_path n mode w1).
  { intros n Hint Hrange Hext. rewrite Hmain. unfold validate_and_run.
    rewrite Hext. cbn [negb].
    now rewrite (proj2 (checked_seed_Ok seed n) (conj Hint Hrange)). }
  split; [exact Haccept|]. split; [|split; [exact Hextension|]].
  - intros Hbad. destruct (endswith file_path (lit ".py")) eqn:Hext.
    + exists seed_message. split; [|reflexivity].
      apply Hreject. rewrite Hmain. unfold validate_and_run.
      rewrite Hext. cbn [negb].
      destruct (checked_seed seed) as [n|e] eqn:Hseed.
      * apply checked_seed_Ok in Hseed as [Hint Hrange]. now destruct (Hbad n Hint).
      * now rewrite (checked_seed_Raise _ _ Hseed).
    + exists extension_message. split; [now apply Hextension | reflexivity].
  - intros s -> (d1 & d2 & d3 & d4 & -> & Hd1 & Hd2 & Hd3 & Hd4)%four_digits_inv.
    eexists. split; [now apply int_of_four_digits|]. split; [lia|].
    intros Hn Hext. apply Haccept; [now apply int_of_four_digits | lia | exact Hext].
Qed.

(** C7. For a path that passed the check on the extension and has the form
    [name.ext], [updated_process_file] writes to [name_obscure.ext] in
    obscure mode and to [name_deobscure.ext] in deobscure mode: no other
    path changes, and when the input is read and transformed and the
    output path is free, or taken by a file that the user lets overwrite,
    the output is stored there. *)
Theorem output_path_convention (file_path mode : str) (seed : Z) (w : world)
    (name ext : str) :
  endswith file_path (lit ".py") = true ->
  os_path_splitext (resolve_path (w_cwd w) file_path) = (name, ext) ->
  ext <> [] ->
  let p := resolve_path (w_cwd w) file_path in
  let out := abspath (w_cwd w) (output_name name ext mode) in
  let run := updated_process_file file_path seed mode w in
  p = name ++ ext
  /\ output_name name ext (lit "o") = name ++ lit "_obscure" ++ ext
  /\ output_name name ext (lit "d") = name ++ lit "_deobscure" ++ ext
  /\ (forall k, k <> out -> w_fs run.2 !! k = w_fs w !! k)
  /\ (forall raw content new_content data,
        w_fs w !! abspath (w_cwd w) p = Some (File raw) ->
        content_of mode raw = Ok content ->
        codec_value mode content seed = Ok new_content ->
        payload mode new_content = Ok data ->
        (w_fs w !! out = None
         \/ exists old line rest,
              w_fs w !! out = Some (File old) /\ w_stdin w = line :: rest
              /\ str_lower line = lit "y") ->
        run.1 = Ok () /\ w_fs run.2 = <[out := File data]> (w_fs w)).
Proof.
  intros Hend Hsplit Hext p out run.
  pose proof (resolve_path_endswith (w_cwd w) _ _ Hend) as Hend'.
  destruct (splitext_form _ _ _ Hend' Hsplit Hext) as [Hpy Hp].
  assert (Hout : new_path p mode = output_name name ext mode).
  { unfold new_path, output_name. fold p in Hsplit. rewrite Hsplit, Hpy. cbn [fst].
    now destruct (str_eqb mode (lit "o")). }
  split; [exact Hp|]. split; [reflexivity|]. split; [reflexivity|]. split.
  - intros k Hk.
    destruct (writes_updated_process_file (w_cwd w) file_path mode seed w eq_refl)
      as [_ Hframe].
    apply Hframe. fold p. now rewrite Hout.
  - intros raw content new_content data Hfile Hcontent Hcodec Hdata Hfree.
    subst run out. rewrite <- Hout in *.
    rewrite (updated_process_file_to_prompt _ _ _ _ _ _ _ Hfile Hcontent Hcodec).
    fold p. set (w2 := after_record w _).
    assert (Hgo : exists w3, confirm_overwrite (new_path p mode) w2 = (Ok true, w3)
                    /\ w_fs w3 = w_fs w /\ w_cwd w3 = w_cwd w).
    { destruct Hfree as [Hnone|(old & line & rest & Hold & Hin & Hyes)].
      - exists w2. split; [|now split].
        apply confirm_overwrite_absent. exact Hnone.
      - eexists. split.
        + eapply confirm_overwrite_accepted; [|exact Hin|exact Hyes].
          exact Hold.
        + now split. }
    destruct Hgo as (w3 & Hconf & Hfs3 & Hcwd3).
    destruct (write_and_report_run (new_path p mode) mode new_content
                (w_clock w (w_reads w)) w3 data) as (w4 & Hrun & Hfs4 & _).
    { rewrite Hfs3, Hcwd3.
      destruct Hfree as [->|(old & _ & _ & -> & _)]; discriminate. }
    { exact Hdata. }
    erewrite try_except_bind_Ok by exact Hconf. cbn [negb].
    rewrite (try_except_Ok _ _ _ _ _ Hrun). cbn [fst snd].
    split; [reflexivity|]. now rewrite Hfs4, Hfs3, Hcwd3.
Qed.

(** C8, as the code has it. When the output path is taken and the answer
    to the question is not [y], [updated_process_file] returns with every
    file as it was: nothing is written to the output path and no file is
    created.  What the run leaves behind is the record with the MD5 of the
    input, appended to the log before the question, and the two lines on
    the terminal. *)
Theorem declined_overwrite_keeps_files (file_path mode : str) (seed : Z)
    (w : world) (raw : bytes) (content new_content : pyval) (n : node)
    (line : str) (rest : list str) :
  let p := resolve_path (w_cwd w) file_path in
  let q := new_path p mode in
  w_fs w !! abspath (w_cwd w) p = Some (File raw) ->
  content_of mode raw = Ok content ->
  codec_value mode content seed = Ok new_content ->
  w_fs w !! abspath (w_cwd w) q = Some n ->
  w_stdin w = line :: rest ->
  str_lower line <> lit "y" ->
  exists w',
    updated_process_file file_path seed mode w = (Ok (), w')
    /\ w_fs w' = w_fs w
    /\ w_log w' = w_log w ++ [(INFO, md5_record p (md5_hexdigest raw))]
    /\ w_stdout w' = w_stdout w ++ [overwrite_prompt q; lit "Operation cancelled."]
    /\ w_stdin w' = rest.
Proof.
  intros p q Hfile Hcontent Hcodec Hq Hin Hno.
  rewrite (updated_process_file_to_prompt _ _ _ _ _ _ _ Hfile Hcontent Hcodec).
  fold p q.
  erewrite try_except_bind_Ok.
  2:{ eapply confirm_overwrite_declined; [exact Hq|exact Hin|exact Hno]. }
  cbn [negb]. eexists. split; [reflexivity|].
  cbn [w_fs w_log w_stdout w_stdin after_record].
  repeat split. now rewrite <- app_assoc.
Qed.

End BoundaryClaims.

(** ** The properties on concrete inputs *)

(** The sample is a text. *)
Lemma sample_text_is_text : text sample_text.
Proof. unfold text. repeat constructor. Qed.

(** The round trip on the sample text with the seed 1234. *)
Lemma deobscure_obscure_roundtrip_witness :
  text sample_text /\ 1000 <= 1234 <= 9999
  /\ exists C,
       @obscure_code ascii_platform (VStr sample_text) 1234 empty_world
       = (Ok C, empty_world)
       /\ utf8_encode sample_text
          = Some (map (fun b => (byte_to_Z b - 1234) mod 256) C)
       /\ @deobscure_code ascii_platform (VBytes C) 1234 empty_world
          = (Ok sample_text, empty_world).
Proof.
  split; [exact sample_text_is_text|]. split; [lia|].
  apply (@deobscure_obscure_roundtrip ascii_platform sample_text 1234
           empty_world empty_world sample_text_is_text).
  lia.
Defined.

(** The shifted encoding of the sample text with the seed 1234. *)
Lemma obscure_code_shifts_encoding_witness :
  exists us,
    utf8_encode sample_text = Some us
    /\ exists C,
         @obscure_code ascii_platform (VStr sample_text) 1234 empty_world
         = (Ok C, empty_world)
         /\ map byte_to_Z C = shift_up 1234 us
         /\ Forall (fun c => 0 <= byte_to_Z c <= 255) C
         /\ length C = length us
         /\ @obscure_code ascii_platform (VStr []) 1234 empty_world
            = (Ok [], empty_world).
Proof.
  eexists. split; [vm_compute; reflexivity|].
  apply (@obscure_code_shifts_encoding ascii_platform sample_text 1234 empty_world).
  vm_compute. reflexivity.
Defined.

(** The seed 1024 leaves the bytes of the source file as they are. *)
Lemma multiple_of_256_is_identity_witness :
  1024 mod 256 = 0
  /\ @obscure_code ascii_platform (VStr (lit "print('hi')")) 1024 empty_world
     = (Ok hi_py, empty_world)
  /\ @deobscure_code ascii_platform (VBytes hi_py) 1024 empty_world
     = (Ok (lit "print('hi')"), empty_world).
Proof.
  split; [reflexivity|].
  destruct (@multiple_of_256_is_identity ascii_platform (lit "print('hi')") 1024
              empty_world (lit "print('hi')") eq_refl eq_refl)
    as (Hobs & _ & Hdeobs & _).
  split; [exact Hobs | exact Hdeobs].
Defined.

(** C6, counterexample: the five characters [+1234] are no four-digit
    string, and [main] takes them for the seed 1234 and writes the output. *)
Lemma signed_seed_is_accepted :
  let w := fresh_world [lit "o"; lit "a.py"; lit "+1234"] in
  let run := @main ascii_platform no_arguments w in
  ~ four_digits (lit "+1234")
  /\ @int_of_str ascii_platform (lit "+1234") = Ok 1234
  /\ run.1 = Ok ()
  /\ w_fs w !! lit "/home/a_obscure.py" = None
  /\ w_fs run.2 !! lit "/home/a_obscure.py"
     = Some (File (map byte_of (shift_up 1234 (lit "print('hi')")))).
Proof.
  cbv zeta. split; [|repeat split; vm_compute; reflexivity].
  intros [Hlen _]. discriminate Hlen.
Qed.

(** With no argument on the command line, the answers [o], [a.py] and
    [1234] to the prompts reach [updated_process_file] with the seed 1234. *)
Lemma main_checks_seed_witness :
  let w := fresh_world [lit "o"; lit "a.py"; lit "1234"] in
  let args := mkNamespace None None None in
  let w1 := (@resolve_arguments ascii_platform args w).2 in
  no_arguments w = (Ok args, w)
  /\ @resolve_arguments ascii_platform args w
     = (Ok (lit "o", lit "a.py", SeedStr (lit "1234")), w1)
  /\ @main ascii_platform no_arguments w
     = @updated_process_file ascii_platform (lit "a.py") 1234 (lit "o") w1.
Proof.
  cbv zeta.
  assert (Hres : @resolve_arguments ascii_platform (mkNamespace None None None)
                   (fresh_world [lit "o"; lit "a.py"; lit "1234"])
                 = (Ok (lit "o", lit "a.py", SeedStr (lit "1234")),
                    (@resolve_arguments ascii_platform (mkNamespace None None None)
                       (fresh_world [lit "o"; lit "a.py"; lit "1234"])).2))
    by (vm_compute; reflexivity).
  split; [reflexivity|]. split; [exact Hres|].
  destruct (@main_checks_seed ascii_platform no_arguments _ _ _ _ _ _ _
              eq_refl Hres) as [Haccept _].
  apply Haccept; [vm_compute; reflexivity | lia | vm_compute; reflexivity].
Defined.

(** Obscuring [/home/a.py] stores the shifted bytes in
    [/home/a_obscure.py]. *)
Lemma output_path_convention_witness :
  let w := fresh_world [] in
  let run := @updated_process_file ascii_platform (lit "a.py") 1234 (lit "o") w in
  endswith (lit "a.py") (lit ".py") = true
  /\ os_path_splitext (resolve_path (w_cwd w) (lit "a.py"))
     = (lit "/home/a", lit ".py")
  /\ run.1 = Ok ()
  /\ w_fs run.2
     = <[lit "/home/a_obscure.py" := File (map byte_of (shift_up 1234 (lit "print('hi')")))]>
         (w_fs w).
Proof.
  cbv zeta. split; [reflexivity|]. split; [reflexivity|].
  destruct (@output_path_convention ascii_platform (lit "a.py") (lit "o") 1234
              (fresh_world []) (lit "/home/a") (lit ".py")
              eq_refl eq_refl ltac:(discriminate))
    as (_ & _ & _ & _ & Hstore).
  apply (Hstore hi_py (VStr (lit "print('hi')"))
                (VBytes (map byte_of (shift_up 1234 (lit "print('hi')"))))).
  - reflexivity.
  - reflexivity.
  - reflexivity.
  - reflexivity.
  - left. reflexivity.
Defined.

(** C8, counterexample: the output of an earlier run is there and the user
    answers [n]; the files are as before, and the log file has a record
    more. *)
Lemma declined_overwrite_reaches_log :
  let w := rerun_world [lit "n"] in
  let run := @updated_process_file ascii_platform (lit "a.py") 1234 (lit "o") w in
  w_fs w !! lit "/home/a_obscure.py" = Some (File (map byte_of (lit "old")))
  /\ @str_lower ascii_platform (lit "n") <> lit "y"
  /\ run.1 = Ok ()
  /\ w_fs run.2 = w_fs w
  /\ w_log w = []
  /\ w_log run.2
     = [(INFO, lit "MD5 of original file (/home/a.py): "
               ++ @md5_hexdigest ascii_platform hi_py)].
Proof.
  cbv zeta. split; [reflexivity|]. split; [discriminate|].
  repeat split; vm_compute; reflexivity.
Qed.

(** The same run, read off the theorem: the files stay, the question and
    the cancellation are on the terminal. *)
Lemma declined_overwrite_keeps_files_witness :
  let w := rerun_world [lit "n"] in
  exists w',
    @updated_process_file ascii_platform (lit "a.py") 1234 (lit "o") w = (Ok (), w')
    /\ w_fs w' = w_fs w
    /\ w_stdout w'
       = [lit "File /home/a_obscure.py already exists. Overwrite? (y/n): ";
          lit "Operation cancelled."]
    /\ w_stdin w' = [].
Proof.
  cbv zeta.
  destruct (@declined_overwrite_keeps_files ascii_platform (lit "a.py") (lit "o") 1234
              (rerun_world [lit "n"]) hi_py (VStr (lit "print('hi')"))
              (VBytes (map byte_of (shift_up 1234 (lit "print('hi')"))))
              (File (map byte_of (lit "old"))) (lit "n") []
              eq_refl eq_refl eq_refl eq_refl eq_refl ltac:(discriminate))
    as (w' & Hrun & Hfs & _ & Hout & Hin).
  exists w'. repeat split; assumption.
Defined.

(** Obscuring what deobscuring returned gives the bytes back. *)
Lemma obscure_deobscure_roundtrip_witness :
  let C := map byte_of (shift_up 1234 (lit "print('hi')")) in
  (@deobscure_code ascii_platform (VBytes C) 1234 empty_world).1
  = Ok (lit "print('hi')")
  /\ @obscure_code ascii_platform (VStr (lit "print('hi')")) 1234 empty_world
     = (Ok C, empty_world).
Proof.
  cbv zeta.
  assert (Hback : (@deobscure_code ascii_platform
                     (VBytes (map byte_of (shift_up 1234 (lit "print('hi')"))))
                     1234 empty_world).1 = Ok (lit "print('hi')"))
    by (vm_compute; reflexivity).
  split; [exact Hback|].
  exact (@obscure_deobscure_roundtrip ascii_platform _ _ _ _ _ Hback).
Defined.

(** The seeds 1234 and 1490 are congruent modulo 256, and deobscure for
    each other. *)
Lemma wrong_seed_detected_witness :
  let C := map byte_of (shift_up 1234 (lit "print('hi')")) in
  lit "print('hi')" <> []
  /\ (@obscure_code ascii_platform (VStr (lit "print('hi')")) 1234 empty_world).1
     = Ok C
  /\ (@deobscure_code ascii_platform (VBytes C) 1490 empty_world).1
     = Ok (lit "print('hi')")
  /\ 1234 mod 256 = 1490 mod 256.
Proof.
  cbv zeta.
  assert (Hne : lit "print('hi')" <> []) by discriminate.
  assert (Hobs : (@obscure_code ascii_platform (VStr (lit "print('hi')")) 1234
                    empty_world).1
                 = Ok (map byte_of (shift_up 1234 (lit "print('hi')"))))
    by (vm_compute; reflexivity).
  assert (Hback : (@deobscure_code ascii_platform
                     (VBytes (map byte_of (shift_up 1234 (lit "print('hi')"))))
                     1490 empty_world).1 = Ok (lit "print('hi')"))
    by (vm_compute; reflexivity).
  split; [exact Hne|]. split; [exact Hobs|]. split; [exact Hback|].
  exact (@wrong_seed_detected ascii_platform _ _ _ _ _ _ Hne Hobs Hback).
Defined.

(** * Further properties *)

(** ** More on paths *)

(** [rfind]: either the character is absent, or the result is the index of
    its last occurrence. *)
Lemma rfind_from_spec (ch : Z) (p : str) (i found : Z) :
  ((ch ∉ p) /\ rfind_from ch p i found = found)
  \/ exists q r, p = q ++ ch :: r /\ (ch ∉ r)
       /\ rfind_from ch p i found = i + Z.of_nat (length q).
Proof.
  revert i found. induction p as [|x p IH]; intros i found.
  - left. split; [apply not_elem_of_nil | reflexivity].
  - cbn [rfind_from].
    destruct (IH (i + 1) (if x =? ch then i else found))
      as [[Hnot Hres]|(q & r & -> & Hr & Hres)].
    + destruct (Z.eqb_spec x ch) as [->|Hx].
      * right. exists [], p. repeat split; auto; rewrite Hres; cbn; lia.
      * left. split; [|exact Hres]. apply not_elem_of_cons. split; [congruence|exact Hnot].
    + right. exists (x :: q), r. repeat split; auto; rewrite Hres; cbn [length]; lia.
Qed.

Lemma rfind_spec (p : str) (ch : Z) :
  ((ch ∉ p) /\ rfind p ch = -1)
  \/ exists q r, p = q ++ ch :: r /\ (ch ∉ r) /\ rfind p ch = Z.of_nat (length q).
Proof.
  unfold rfind.
  destruct (rfind_from_spec ch p 0 (-1)) as [?|(q & r & ? & ? & Hres)]; [now left|].
  right. exists q, r. repeat split; auto; rewrite Hres; lia.
Qed.

Lemma rfind_app_absent (p x : str) (ch : Z) :
  ch ∉ x -> rfind (p ++ x) ch = rfind p ch.
Proof.
  intros Hx. unfold rfind. generalize 0 (-1).
  induction p as [|c p IH]; intros i found; cbn [app rfind_from].
  - now apply rfind_from_absent.
  - apply IH.
Qed.

(** Behind its last occurrence a character is absent. *)
Lemma rfind_drop_absent (p : str) (ch : Z) (n : nat) :
  rfind p ch < Z.of_nat n -> ch ∉ drop n p.
Proof.
  intros Hn. destruct (rfind_spec p ch) as [[Hno _]|(q & r & -> & Hr & Hres)].
  - intros Hin. apply Hno. revert Hin. apply subseteq_drop.
  - rewrite Hres in Hn. rewrite (cons_middle ch q r), app_assoc.
    rewrite drop_app_ge by (rewrite length_app; cbn; lia).
    intros Hin. apply Hr. revert Hin. apply subseteq_drop.
Qed.

(** Where [rfind] finds the character, the character is. *)
Lemma rfind_drop_head (p : str) (ch : Z) :
  0 <= rfind p ch -> exists t, drop (Z.to_nat (rfind p ch)) p = ch :: t.
Proof.
  destruct (rfind_spec p ch) as [[_ ->]|(q & r & -> & _ & ->)]; [lia|].
  intros _. exists r. rewrite Nat2Z.id. apply drop_app_length.
Qed.

Lemma rfind_lower_bound (p : str) (ch : Z) : -1 <= rfind p ch.
Proof. destruct (rfind_spec p ch) as [[_ ->]|(q & r & _ & _ & ->)]; lia. Qed.

(** The two parts that [os.path.splitext] returns make up the path; the
    extension is empty or starts with a dot, and holds no separator. *)
Lemma splitext_parts (p base ext : str) :
  os_path_splitext p = (base, ext) ->
  p = base ++ ext
  /\ (ext = [] \/ exists t, ext = extsep :: t)
  /\ (sep ∉ ext).
Proof.
  unfold os_path_splitext.
  destruct (_ && _) eqn:Hcond.
  - intros [= <- <-]. unfold slice_to, slice_from.
    split; [symmetry; apply take_drop|].
    apply andb_prop in Hcond as [Hlt%Z.ltb_lt _].
    pose proof (rfind_lower_bound p sep) as Hlow.
    split.
    + right. apply rfind_drop_head. lia.
    + apply rfind_drop_absent. lia.
  - intros [= <- <-]. rewrite app_nil_r.
    split; [reflexivity|]. split; [now left | apply not_elem_of_nil].
Qed.

Lemma startswith_sep_cons (c : Z) (x : str) :
  startswith (c :: x) [sep] = bool_decide (c = sep).
Proof.
  unfold startswith. apply bool_decide_ext. split.
  - intros [k Hk]. now injection Hk.
  - intros ->. now exists x.
Qed.

Lemma startswith_sep_false (x : str) :
  (forall c t, x = c :: t -> c <> sep) -> startswith x [sep] = false.
Proof.
  intros Hx. destruct x as [|c t].
  - apply bool_decide_eq_false. intros [k Hk]. discriminate Hk.
  - rewrite startswith_sep_cons. apply bool_decide_eq_false. now apply (Hx c t).
Qed.

(** The key of a relative path is the path behind a prefix that the
    directory fixes; an absolute path is its own key. *)
Lemma abspath_relative (cwd : str) :
  exists pre, forall x, startswith x [sep] = false -> abspath cwd x = pre ++ x.
Proof.
  exists (if str_eqb cwd [] || endswith cwd [sep] then cwd else cwd ++ [sep]).
  intros x Hx. unfold abspath, os_path_join. rewrite Hx.
  destruct (_ || _); [reflexivity | apply app_assoc].
Qed.

Lemma abspath_absolute (cwd x : str) :
  startswith x [sep] = true -> abspath cwd x = x.
Proof. intros Hx. unfold abspath. now rewrite Hx. Qed.

Lemma abspath_app_inj (cwd base x y : str) :
  (forall c t, x = c :: t -> c <> sep) ->
  (forall c t, y = c :: t -> c <> sep) ->
  abspath cwd (base ++ x) = abspath cwd (base ++ y) -> x = y.
Proof.
  intros Hx Hy. destruct (abspath_relative cwd) as [pre Hpre].
  assert (Hsame : startswith (base ++ x) [sep] = startswith (base ++ y) [sep]).
  { destruct base as [|b base]; cbn [app].
    - now rewrite !startswith_sep_false.
    - now rewrite !startswith_sep_cons. }
  destruct (startswith (base ++ y) [sep]) eqn:Hstart.
  - rewrite !abspath_absolute by assumption. apply app_inv_head.
  - rewrite !Hpre by assumption. intros Heq%app_inv_head.
    now apply app_inv_head in Heq.
Qed.

Section PathExtras.
Context `{Platform}.

(** The output path is never the input path. *)
Lemma new_path_differs (cwd p mode : str) :
  abspath cwd (new_path p mode) <> abspath cwd p.
Proof.
  unfold new_path. destruct (os_path_splitext p) as [base ext] eqn:Hsplit.
  destruct (splitext_parts _ _ _ Hsplit) as (Hp & Hext & _). cbn [fst].
  rewrite Hp. intros Heq.
  assert (Hsuffix : forall suffix, (exists t, suffix = 95 :: t) ->
            abspath cwd (base ++ suffix) = abspath cwd (base ++ ext) -> False).
  { intros suffix [t ->] Habs. apply abspath_app_inj in Habs.
    - destruct Hext as [->|[t' ->]]; [discriminate|]. injection Habs as Hc _.
      unfold extsep in Hc. lia.
    - intros c t0 [= <- _]. unfold sep. lia.
    - intros c t0 ->. destruct Hext as [?|[t' [= -> _]]]; [discriminate|].
      unfold extsep, sep. lia. }
  destruct (str_eqb mode (lit "o")); apply (Hsuffix _ ltac:(by eexists) Heq).
Qed.


(** The output path has the directory part of the input path. *)
Lemma new_path_dirname (p mode : str) :
  os_path_dirname (new_path p mode) = os_path_dirname p.
Proof.
  unfold new_path. destruct (os_path_splitext p) as [base ext] eqn:Hsplit.
  destruct (splitext_parts _ _ _ Hsplit) as (Hp & _ & Hsep). cbn [fst].
  assert (Hdir : forall x, sep ∉ x -> os_path_dirname (base ++ x) = os_path_dirname base).
  { intros x Hx. unfold os_path_dirname. rewrite (rfind_app_absent _ _ _ Hx).
    assert (Hle : (Z.to_nat (rfind base sep + 1) <= length base)%nat).
    { destruct (rfind_spec base sep) as [[_ ->]|(q & r & -> & _ & ->)].
      - cbn. lia.
      - rewrite length_app. cbn [length]. lia. }
    unfold slice_to. now rewrite take_app_le by exact Hle. }
  rewrite Hp, (Hdir ext Hsep).
  destruct (str_eqb mode (lit "o")); apply Hdir;
    apply (bool_decide_unpack _); vm_compute; exact I.
Qed.


End PathExtras.

(** ** What the codec raises *)

(** The builtins of the codec raise exceptions only. *)
Lemma bytes_ctor_Raise (l : list Z) (e : exn) : bytes_ctor l = Raise e -> e = ValueError.
Proof.
  induction l as [|z l IH]; cbn [bytes_ctor]; [discriminate|].
  destruct (byte_of_Z z); [|now intros [= <-]].
  destruct (bytes_ctor l); cbn; [discriminate|]. intros [= <-]. now apply IH.
Qed.

Lemma obscure_code_body_Raise (code : pyval) (seed : Z) (e : exn) :
  obscure_code_body code seed = Raise e -> is_Exception e = true.
Proof.
  destruct code as [s|b]; cbn; [|now intros [= <-]].
  unfold str_encode. destruct (utf8_encode s); cbn; [|now intros [= <-]].
  now intros ->%bytes_ctor_Raise.
Qed.

Lemma deobscure_code_body_Raise (code : pyval) (seed : Z) (e : exn) :
  deobscure_code_body code seed = Raise e -> is_Exception e = true.
Proof.
  destruct code as [[|c s]|b]; cbn.
  - discriminate.
  - now intros [= <-].
  - destruct (bytes_ctor _) eqn:Hb; cbn.
    + unfold bytes_decode. destruct (utf8_decode _); [discriminate|]. now intros [= <-].
    + intros [= <-]. now apply bytes_ctor_Raise in Hb as ->.
Qed.

Lemma codec_value_Raise (mode : str) (content : pyval) (seed : Z) (e : exn) :
  codec_value mode content seed = Raise e -> is_Exception e = true.
Proof.
  unfold codec_value. destruct (str_eqb mode _).
  - destruct (obscure_code_body content seed) eqn:Hb; cbn; [discriminate|].
    intros [= <-]. eapply obscure_code_body_Raise, Hb.
  - destruct (deobscure_code_body content seed) eqn:Hb; cbn; [discriminate|].
    intros [= <-]. eapply deobscure_code_body_Raise, Hb.
Qed.

(** ** Failing runs *)

Lemma try_except_bind_Raise {A B} (m : M A) (f : A -> M B) (h : exn -> M B)
    (w w' : world) (e : exn) :
  m w = (Raise e, w') -> is_Exception e = true ->
  try_except (m ≫= f) h w = h e w'.
Proof.
  intros Hm He. unfold try_except. rewrite (bind_Raise _ _ _ _ _ Hm). now rewrite He.
Qed.

Section FailingRuns.
Context `{Platform}.

(** The codec functions log one record and raise again. *)
Lemma obscure_code_Raise (code : pyval) (seed : Z) (w : world) (e : exn) :
  obscure_code_body code seed = Raise e ->
  obscure_code code seed w
  = (Raise e, logged ERROR (lit "Error obscuring code: " ++ exn_str e) w).
Proof.
  intros Hb. unfold obscure_code, try_except, lift. rewrite Hb.
  now rewrite (obscure_code_body_Raise _ _ _ Hb).
Qed.

Lemma deobscure_code_Raise (code : pyval) (seed : Z) (w : world) (e : exn) :
  deobscure_code_body code seed = Raise e ->
  deobscure_code code seed w
  = (Raise e, logged ERROR (lit "Error deobscuring code: " ++ exn_str e) w).
Proof.
  intros Hb. unfold deobscure_code, try_except, lift. rewrite Hb.
  now rewrite (deobscure_code_body_Raise _ _ _ Hb).
Qed.

Lemma transform_Raise (p mode : str) (content : pyval) (seed : Z) (w : world)
    (e : exn) :
  codec_value mode content seed = Raise e ->
  transform p mode content seed w
  = (Raise e, logged ERROR (codec_error_record mode e) w).
Proof.
  unfold codec_value, transform, codec_error_record.
  destruct (str_eqb mode (lit "o")).
  - destruct (obscure_code_body content seed) as [C|e1] eqn:Hb; [discriminate|].
    intros [= <-]. now rewrite (bind_Raise _ _ _ _ _ (obscure_code_Raise _ _ w _ Hb)).
  - destruct (deobscure_code_body content seed) as [C|e1] eqn:Hb; [discriminate|].
    intros [= <-]. now rewrite (bind_Raise _ _ _ _ _ (deobscure_code_Raise _ _ w _ Hb)).
Qed.

(** X6. When the input path holds no regular file, [updated_process_file]
    logs an ERROR record, prints that the file does not exist and returns;
    nothing else changes. *)
Theorem missing_input_reported (file_path mode : str) (seed : Z) (w : world) :
  let p := resolve_path (w_cwd w) file_path in
  (forall data, w_fs w !! abspath (w_cwd w) p <> Some (File data)) ->
  updated_process_file file_path seed mode w
  = (Ok (),
     printed (lit "Error: File " ++ p ++ lit " does not exist.")
       (logged ERROR (missing_file_record p) (ticked w))).
Proof.
  intros p Hno. unfold updated_process_file.
  erewrite bind_Ok by reflexivity.
  erewrite try_except_bind_Ok by reflexivity. cbn [w_cwd]. fold p.
  erewrite try_except_bind_Ok.
  2:{ unfold validate_file_path. erewrite bind_Ok.
      2:{ unfold os_path_isfile. cbn [w_fs w_cwd].
          replace (match w_fs w !! abspath (w_cwd w) p with
                   | Some (File _) => true | _ => false end) with false
            by (destruct (w_fs w !! abspath (w_cwd w) p) as [[data|]|] eqn:Hq;
                [now destruct (Hno data) | reflexivity | reflexivity]).
          reflexivity. }
      cbn [negb]. erewrite bind_Ok by reflexivity. reflexivity. }
  reflexivity.
Qed.

(** A run whose transform raises: the handler reports the exception. *)
Lemma updated_process_file_codec_raises (file_path mode : str) (seed : Z)
    (w : world) (raw : bytes) (content : pyval) (e : exn) :
  let p := resolve_path (w_cwd w) file_path in
  w_fs w !! abspath (w_cwd w) p = Some (File raw) ->
  content_of mode raw = Ok content ->
  codec_value mode content seed = Raise e ->
  updated_process_file file_path seed mode w
  = (Ok (),
     logged ERROR (unexpected_error_line e)
       (printed (unexpected_error_line e)
          (logged ERROR (codec_error_record mode e)
             (after_record w (md5_record p (md5_hexdigest raw)))))).
Proof.
  intros p Hfile Hcontent Hcodec. unfold updated_process_file.
  erewrite bind_Ok by reflexivity.
  erewrite try_except_bind_Ok by reflexivity. cbn [w_cwd]. fold p.
  erewrite try_except_bind_Ok.
  2:{ unfold validate_file_path. erewrite bind_Ok.
      2:{ unfold os_path_isfile. cbn [w_fs w_cwd]. rewrite Hfile. reflexivity. }
      reflexivity. }
  cbn [negb].
  erewrite try_except_bind_Ok.
  2:{ unfold calculate_md5. erewrite bind_Ok.
      2:{ unfold read_binary. cbn [w_fs w_cwd]. rewrite Hfile. reflexivity. }
      reflexivity. }
  erewrite try_except_bind_Ok by reflexivity.
  erewrite try_except_bind_Ok.
  2:{ unfold read_content. erewrite bind_Ok.
      2:{ unfold read_binary. cbn [w_fs w_cwd]. rewrite Hfile. reflexivity. }
      unfold lift. rewrite Hcontent. reflexivity. }
  erewrite try_except_bind_Raise;
    [|apply transform_Raise, Hcodec | eapply codec_value_Raise, Hcodec].
  reflexivity.
Qed.

(** X7. Deobscuring with a seed under which the shifted bytes are not
    valid UTF-8 writes nothing: the run returns after the decoding error is
    logged by [deobscure_code], printed and logged again by the handler. *)
Theorem wrong_seed_writes_nothing (file_path : str) (seed : Z) (w : world)
    (raw : bytes) :
  let p := resolve_path (w_cwd w) file_path in
  let e := UnicodeDecodeError in
  w_fs w !! abspath (w_cwd w) p = Some (File raw) ->
  ~ valid_utf8 (shift_down seed raw) ->
  exists w',
    updated_process_file file_path seed (lit "d") w = (Ok (), w')
    /\ w_fs w' = w_fs w
    /\ w_stdout w' = w_stdout w ++ [lit "An unexpected error occurred: " ++ exn_str e]
    /\ w_log w'
       = w_log w
         ++ [(INFO, md5_record p (md5_hexdigest raw));
             (ERROR, lit "Error deobscuring code: " ++ exn_str e);
             (ERROR, lit "An unexpected error occurred: " ++ exn_str e)].
Proof.
  intros p e Hfile Hbad.
  assert (Hcodec : codec_value (lit "d") (VBytes raw) seed = Raise e).
  { unfold codec_value. change (str_eqb (lit "d") (lit "o")) with false.
    rewrite deobscure_code_body_decode.
    destruct (utf8_decode _) as [P|] eqn:Hdec; [|reflexivity].
    exfalso. apply Hbad. exists P. apply utf8_decode_iff.
    rewrite <- Hdec. f_equal. unfold shift_down. apply map_ext. intros b.
    apply Zminus_mod_idemp_r. }
  eexists. split.
  - apply (updated_process_file_codec_raises file_path (lit "d") seed w raw
             (VBytes raw) e Hfile eq_refl Hcodec).
  - cbn [w_fs w_stdout w_log logged printed after_record].
    repeat split. now rewrite <- !app_assoc.
Qed.

(** X8. A mode that is neither [o] nor [d] (the prompt checks none) is
    taken for deobscuring a file read as text: for a non-empty text the
    subtraction raises TypeError, which is reported, and nothing is
    written. *)
Theorem unknown_mode_writes_nothing (file_path mode : str) (seed : Z) (w : world)
    (raw : bytes) (c : Z) (s : str) :
  let p := resolve_path (w_cwd w) file_path in
  mode <> lit "o" -> mode <> lit "d" ->
  w_fs w !! abspath (w_cwd w) p = Some (File raw) ->
  text_read raw = Ok (c :: s) ->
  exists w',
    updated_process_file file_path seed mode w = (Ok (), w')
    /\ w_fs w' = w_fs w
    /\ w_stdout w'
       = w_stdout w ++ [lit "An unexpected error occurred: " ++ exn_str TypeError]
    /\ w_log w'
       = w_log w
         ++ [(INFO, md5_record p (md5_hexdigest raw));
             (ERROR, lit "Error deobscuring code: " ++ exn_str TypeError);
             (ERROR, lit "An unexpected error occurred: " ++ exn_str TypeError)].
Proof.
  intros p Ho Hd Hfile Hread.
  assert (Hmo : str_eqb mode (lit "o") = false) by now apply bool_decide_eq_false.
  assert (Hmd : str_eqb mode (lit "d") = false) by now apply bool_decide_eq_false.
  assert (Hcontent : content_of mode raw = Ok (VStr (c :: s))).
  { unfold content_of. now rewrite Hmd, Hread. }
  assert (Hcodec : codec_value mode (VStr (c :: s)) seed = Raise TypeError).
  { unfold codec_value. now rewrite Hmo. }
  eexists. split.
  - apply (updated_process_file_codec_raises file_path mode seed w raw _ _
             Hfile Hcontent Hcodec).
  - unfold codec_error_record, unexpected_error_line. rewrite Hmo.
    cbn [w_fs w_stdout w_log logged printed after_record].
    repeat split. now rewrite <- !app_assoc.
Qed.

(** X9. [obscure_code] returns exactly on texts, leaving the world as it
    is; on a string with a lone surrogate it appends one ERROR record to
    the log and raises the UnicodeEncodeError again.  [deobscure_code]
    likewise logs one ERROR record whenever it raises. *)
Theorem codec_logs_and_reraises (P : str) (C : bytes) (seed : Z) (w : world) :
  (text P -> exists C', obscure_code (VStr P) seed w = (Ok C', w))
  /\ (~ text P ->
      obscure_code (VStr P) seed w
      = (Raise UnicodeEncodeError,
         logged ERROR (lit "Error obscuring code: " ++ exn_str UnicodeEncodeError) w))
  /\ (forall e, (deobscure_code (VBytes C) seed w).1 = Raise e ->
      deobscure_code (VBytes C) seed w
      = (Raise UnicodeDecodeError,
         logged ERROR (lit "Error deobscuring code: " ++ exn_str UnicodeDecodeError) w))
  /\ (forall T, (deobscure_code (VBytes C) seed w).1 = Ok T ->
      deobscure_code (VBytes C) seed w = (Ok T, w)).
Proof.
  split; [|split; [|split]].
  - intros (us & Hus)%text_encodable. eexists.
    apply obscure_code_Ok, obscure_code_body_encoded, Hus.
  - intros Hnot. apply obscure_code_Raise, obscure_code_body_unencodable.
    destruct (utf8_encode P) as [us|] eqn:Hus; [|reflexivity].
    exfalso. apply Hnot. apply utf8_encode_scalars. by eexists.
  - intros e. rewrite deobscure_code_value. intros Hb.
    assert (He : e = UnicodeDecodeError).
    { rewrite deobscure_code_body_decode in Hb.
      destruct (utf8_decode _); [discriminate|]. now injection Hb as <-. }
    subst e. now apply deobscure_code_Raise.
  - intros T. rewrite deobscure_code_value. apply deobscure_code_Ok.
Qed.

End FailingRuns.

(** ** The digest loop *)

Section DigestLoop.
Context `{Platform}.
Variable hash : Type.
Variable md5_new : hash.
Variable md5_update : hash -> bytes -> hash.
Variable md5_hex : hash -> str.

(** Feeding a hash object in pieces is feeding it the whole. *)
Hypothesis update_app : forall h a b, md5_update (md5_update h a) b = md5_update h (a ++ b).
Hypothesis update_nil : forall h, md5_update h [] = h.
(** [hashlib.md5(data).hexdigest()] is the digest of a fresh object fed
    with [data]. *)
Hypothesis hexdigest_fed : forall data, md5_hex (md5_update md5_new data) = md5_hexdigest data.

Lemma md5_loop_feeds_all (fuel : nat) (h : hash) (f : bytes) :
  (length f < fuel)%nat ->
  md5_loop hash md5_update fuel h f = Some (md5_update h f).
Proof.
  revert h f. induction fuel as [|fuel IH]; intros h f Hlen; [lia|].
  cbn [md5_loop].
  destruct (take chunk_size f) as [|b chunk] eqn:Htake.
  - assert (f = []) as ->.
    { destruct f as [|x f]; [reflexivity|]. discriminate Htake. }
    now rewrite update_nil.
  - rewrite IH.
    + rewrite update_app, <- Htake. now rewrite take_drop.
    + rewrite length_drop.
      assert (f <> []) by (intros ->; discriminate Htake).
      destruct f; [congruence|]. cbn [length] in *. unfold chunk_size. lia.
Qed.

(** X10. [calculate_md5] digests the whole file: the loop over 4096-byte
    chunks ends within one read more than the file has bytes, and has then
    fed the hash object every byte of the file, in order.  On a missing
    file it raises FileNotFoundError, on a directory IsADirectoryError. *)
Theorem calculate_md5_digests_whole_file (file_path : str) (w : world) :
  match w_fs w !! abspath (w_cwd w) file_path with
  | Some (File data) =>
      exists h,
        md5_loop hash md5_update (S (length data)) md5_new data = Some h
        /\ h = md5_update md5_new data
        /\ calculate_md5 file_path w = (Ok (md5_hex h), w)
  | Some Dir => calculate_md5 file_path w = (Raise IsADirectoryError, w)
  | None => calculate_md5 file_path w = (Raise FileNotFoundError, w)
  end.
Proof.
  unfold calculate_md5, read_binary, mbind, M_bind.
  destruct (w_fs w !! abspath (w_cwd w) file_path) as [[data|]|]; try reflexivity.
  exists (md5_update md5_new data). split; [|split].
  - apply md5_loop_feeds_all. lia.
  - reflexivity.
  - now rewrite hexdigest_fed.
Qed.

End DigestLoop.

(** ** The prompts *)

Lemma input_line (prompt line : str) (rest : list str) (w : world) :
  w_stdin w = line :: rest ->
  input prompt w
  = (Ok line, mkWorld (w_fs w) (w_cwd w) (w_log w) (w_stdout w ++ [prompt]) rest
                      (w_clock w) (w_reads w)).
Proof. intros Hin. unfold input. now rewrite Hin. Qed.

Lemma input_eof (prompt : str) (w : world) :
  w_stdin w = [] ->
  input prompt w
  = (Raise EOFError,
     mkWorld (w_fs w) (w_cwd w) (w_log w) (w_stdout w ++ [prompt]) []
             (w_clock w) (w_reads w)).
Proof. intros Hin. unfold input. now rewrite Hin. Qed.

Section Prompts.
Context `{Platform}.

(** [interactive_input], answer by answer. *)
Lemma interactive_input_run (w : world) :
  interactive_input w
  = match w_stdin w with
    | [] => (Raise EOFError, prompted [mode_prompt] [] w)
    | a1 :: r1 =>
        if str_eqb (str_lower a1) (lit "q")
        then (Raise (SystemExit (lit "Exiting Obscurce.")), prompted [mode_prompt] r1 w)
        else match r1 with
             | [] => (Raise EOFError, prompted [mode_prompt; file_prompt] [] w)
             | a2 :: r2 =>
                 if str_eqb a2 (lit "q")
                 then (Raise (SystemExit (lit "Exiting Obscurce.")),
                       prompted [mode_prompt; file_prompt] r2 w)
                 else match r2 with
                      | [] => (Raise EOFError,
                               prompted [mode_prompt; file_prompt; seed_prompt] [] w)
                      | a3 :: r3 =>
                          if str_eqb a3 (lit "q")
                          then (Raise (SystemExit (lit "Exiting Obscurce.")),
                                prompted [mode_prompt; file_prompt; seed_prompt] r3 w)
                          else (Ok (str_lower a1, a2, SeedStr a3),
                                prompted [mode_prompt; file_prompt; seed_prompt] r3 w)
                      end
             end
    end.
Proof.
  unfold interactive_input, sys_exit, raise, prompted, banner.
  erewrite bind_Ok by reflexivity. erewrite bind_Ok by reflexivity.
  cbn [w_fs w_cwd w_log w_stdout w_stdin w_clock w_reads].
  destruct (w_stdin w) as [|a1 r1] eqn:Hin.
  { erewrite bind_Raise by (apply input_eof; reflexivity).
    cbn [w_fs w_cwd w_log w_stdout w_stdin w_clock w_reads].
    now rewrite <- !app_assoc. }
  erewrite bind_Ok by (apply input_line; reflexivity). cbv beta zeta.
  cbn [w_fs w_cwd w_log w_stdout w_stdin w_clock w_reads].
  destruct (str_eqb (str_lower a1) (lit "q")); [now rewrite <- !app_assoc|].
  destruct r1 as [|a2 r2].
  { erewrite bind_Raise by (apply input_eof; reflexivity).
    cbn [w_fs w_cwd w_log w_stdout w_stdin w_clock w_reads].
    now rewrite <- !app_assoc. }
  erewrite bind_Ok by (apply input_line; reflexivity). cbv beta.
  cbn [w_fs w_cwd w_log w_stdout w_stdin w_clock w_reads].
  destruct (str_eqb a2 (lit "q")); [now rewrite <- !app_assoc|].
  destruct r2 as [|a3 r3].
  { erewrite bind_Raise by (apply input_eof; reflexivity).
    cbn [w_fs w_cwd w_log w_stdout w_stdin w_clock w_reads].
    now rewrite <- !app_assoc. }
  erewrite bind_Ok by (apply input_line; reflexivity). cbv beta.
  cbn [w_fs w_cwd w_log w_stdout w_stdin w_clock w_reads].
  destruct (str_eqb a3 (lit "q")); now rewrite <- !app_assoc.
Qed.

(** X11. What [interactive_input] does with the lines that are typed.
    It returns only after three answers, none of them a request to quit,
    and with three such answers it does return: the mode is the first
    answer in lower case (whatever it is), the path and the seed are the
    second and third as typed.  The first answer that asks to quit - [q]
    in either case at the first prompt, [q] exactly at the second or third
    - raises SystemExit with the message [Exiting Obscurce.], and the
    prompts behind it are not shown.  When the input ends at a prompt that
    was reached, EOFError is raised.  In each case the terminal shows the
    banner and the prompts up to there, and the files and the log are as
    they were. *)
Theorem interactive_input_outcomes (w : world) :
  let quit : result (str * str * seed_value) :=
    Raise (SystemExit (lit "Exiting Obscurce.")) in
  (forall mode file_path seed w',
     interactive_input w = (Ok (mode, file_path, seed), w') ->
     exists a1 a2 a3,
       w_stdin w = a1 :: a2 :: a3 :: w_stdin w'
       /\ mode = str_lower a1 /\ file_path = a2 /\ seed = SeedStr a3
       /\ mode <> lit "q" /\ a2 <> lit "q" /\ a3 <> lit "q"
       /\ w_stdout w' = w_stdout w ++ banner ++ [mode_prompt; file_prompt; seed_prompt])
  /\ (forall a1 a2 a3 rest,
        w_stdin w = a1 :: a2 :: a3 :: rest ->
        str_lower a1 <> lit "q" -> a2 <> lit "q" -> a3 <> lit "q" ->
        interactive_input w
        = (Ok (str_lower a1, a2, SeedStr a3),
           prompted [mode_prompt; file_prompt; seed_prompt] rest w))
  /\ (forall a1 rest,
        w_stdin w = a1 :: rest -> str_lower a1 = lit "q" ->
        interactive_input w = (quit, prompted [mode_prompt] rest w))
  /\ (forall a1 rest,
        w_stdin w = a1 :: lit "q" :: rest -> str_lower a1 <> lit "q" ->
        interactive_input w = (quit, prompted [mode_prompt; file_prompt] rest w))
  /\ (forall a1 a2 rest,
        w_stdin w = a1 :: a2 :: lit "q" :: rest ->
        str_lower a1 <> lit "q" -> a2 <> lit "q" ->
        interactive_input w
        = (quit, prompted [mode_prompt; file_prompt; seed_prompt] rest w))
  /\ (w_stdin w = [] ->
      interactive_input w = (Raise EOFError, prompted [mode_prompt] [] w))
  /\ (forall a1,
        w_stdin w = [a1] -> str_lower a1 <> lit "q" ->
        interactive_input w
        = (Raise EOFError, prompted [mode_prompt; file_prompt] [] w))
  /\ (forall a1 a2,
        w_stdin w = [a1; a2] -> str_lower a1 <> lit "q" -> a2 <> lit "q" ->
        interactive_input w
        = (Raise EOFError, prompted [mode_prompt; file_prompt; seed_prompt] [] w)).
Proof.
  intros quit. subst quit. rewrite interactive_input_run. unfold str_eqb.
  split; [|repeat split].
  - intros mode file_path seed w'.
    destruct (w_stdin w) as [|a1 [|a2 [|a3 r3]]]; try discriminate;
      repeat case_bool_decide; try discriminate.
    intros [= <- <- <- <-]. exists a1, a2, a3. now repeat split.
  - intros a1 a2 a3 rest -> H1 H2 H3.
    now rewrite !bool_decide_eq_false_2 by assumption.
  - intros a1 rest -> Hq. now rewrite bool_decide_eq_true_2.
  - intros a1 rest -> H1.
    rewrite bool_decide_eq_false_2 by assumption.
    now rewrite bool_decide_eq_true_2.
  - intros a1 a2 rest -> H1 H2.
    rewrite !bool_decide_eq_false_2 by assumption.
    now rewrite bool_decide_eq_true_2.
  - now intros ->.
  - intros a1 -> H1. now rewrite bool_decide_eq_false_2.
  - intros a1 a2 -> H1 H2. now rewrite !bool_decide_eq_false_2 by assumption.
Qed.

End Prompts.

(** ** Whole runs *)

Section WholeRuns.
Context `{P : Platform}.

(** A run that reads, transforms and writes. *)
Lemma updated_process_file_success (file_path mode : str) (seed : Z) (w : world)
    (raw data : bytes) (content new_content : pyval) :
  let p := resolve_path (w_cwd w) file_path in
  let out := abspath (w_cwd w) (new_path p mode) in
  w_fs w !! abspath (w_cwd w) p = Some (File raw) ->
  content_of mode raw = Ok content ->
  codec_value mode content seed = Ok new_content ->
  payload mode new_content = Ok data ->
  w_fs w !! out = None ->
  exists w',
    updated_process_file file_path seed mode w = (Ok (), w')
    /\ w_fs w' = <[out := File data]> (w_fs w)
    /\ w_cwd w' = w_cwd w.
Proof.
  intros p out Hfile Hcontent Hcodec Hdata Hfree.
  destruct (writes_updated_process_file (w_cwd w) file_path mode seed w eq_refl)
    as [Hcwd _].
  revert Hcwd.
  rewrite (updated_process_file_to_prompt _ _ _ _ _ _ _ Hfile Hcontent Hcodec).
  fold p. set (w2 := after_record w _).
  erewrite try_except_bind_Ok by (apply confirm_overwrite_absent; exact Hfree).
  cbn [negb].
  destruct (write_and_report_run (new_path p mode) mode new_content
              (w_clock w (w_reads w)) w2 data) as (w4 & Hrun & Hfs4 & _).
  { change (w_fs w !! out <> Some Dir). now rewrite Hfree. }
  { exact Hdata. }
  rewrite (try_except_Ok _ _ _ _ _ Hrun). cbn [snd]. intros Hcwd.
  exists w4. repeat split; [exact Hfs4 | exact Hcwd].
Qed.

(** The output of an obscuring run splits into its stem and [.py]. *)
Lemma splitext_obscured (name : str) :
  os_path_splitext (name ++ lit "_obscure.py") = (name ++ lit "_obscure", lit ".py").
Proof.
  change (lit "_obscure.py") with (lit "_obscure" ++ lit ".py").
  rewrite app_assoc.
  destruct (splitext_dot_py (name ++ lit "_obscure")) as [Heq|Heq]; [exact Heq|].
  exfalso. revert Heq. unfold os_path_splitext.
  rewrite rfind_dot_py.
  assert (Hsep : rfind ((name ++ lit "_obscure") ++ lit ".py") sep = rfind name sep).
  { rewrite <- app_assoc.
    apply rfind_app_absent. apply (bool_decide_unpack _). vm_compute. exact I. }
  rewrite Hsep.
  assert (Hlt : rfind name sep < Z.of_nat (length (name ++ lit "_obscure"))).
  { rewrite length_app.
    destruct (rfind_spec name sep) as [[_ ->]|(q & r & -> & _ & ->)];
      [lia | rewrite length_app; cbn [length]; lia]. }
  rewrite (proj2 (Z.ltb_lt _ _) Hlt). cbn [andb].
  unfold slice_to, slice_from. rewrite Nat2Z.id, take_app_length.
  assert (Hdots : forallb (Z.eqb extsep)
                    (drop (Z.to_nat (rfind name sep + 1)) (name ++ lit "_obscure"))
                  = false).
  { pose proof (rfind_lower_bound name sep) as Hlow.
    assert (Hle : (Z.to_nat (rfind name sep + 1) <= length name)%nat).
    { destruct (rfind_spec name sep) as [[_ ->]|(q & r & -> & _ & ->)];
        [cbn; lia | rewrite length_app; cbn [length]; lia]. }
    rewrite drop_app_le by exact Hle. rewrite forallb_app.
    apply andb_false_iff. right. reflexivity. }
  rewrite Hdots. cbn [negb]. intros [= Hbad _].
  apply (f_equal (@length _)) in Hbad. rewrite !length_app in Hbad.
  cbn in Hbad. lia.
Qed.

(** X13. The round trip on files.  Obscuring a source file and deobscuring
    the output with the same seed leaves three files: the input as it was,
    [name_obscure.py] with the shifted bytes, and [name_obscure_deobscure.py]
    with the text of the input written back. *)
Theorem file_roundtrip (p name : str) (seed : Z) (w : world) (raw data : bytes)
    (T : str) :
  let q1 := name ++ lit "_obscure.py" in
  let q2 := name ++ lit "_obscure_deobscure.py" in
  os_path_dirname p <> [] ->
  os_path_splitext p = (name, lit ".py") ->
  w_fs w !! abspath (w_cwd w) p = Some (File raw) ->
  text_read raw = Ok T -> text T -> text_write T = Ok data ->
  w_fs w !! abspath (w_cwd w) q1 = None ->
  w_fs w !! abspath (w_cwd w) q2 = None ->
  exists C w1 w2,
    updated_process_file p seed (lit "o") w = (Ok (), w1)
    /\ updated_process_file q1 seed (lit "d") w1 = (Ok (), w2)
    /\ obscure_code_body (VStr T) seed = Ok C
    /\ w_fs w2
       = <[abspath (w_cwd w) q2 := File data]>
           (<[abspath (w_cwd w) q1 := File C]> (w_fs w))
    /\ w_fs w2 !! abspath (w_cwd w) p = Some (File raw).
Proof.
  intros q1 q2 Hdir Hsplit Hfile Hread Htext Hwrite Hfree1 Hfree2.
  assert (Hres : forall x, os_path_dirname x <> [] -> resolve_path (w_cwd w) x = x).
  { intros x Hx. unfold resolve_path, str_eqb.
    now rewrite bool_decide_eq_false_2. }
  assert (Hnew1 : new_path p (lit "o") = q1).
  { unfold new_path. rewrite Hsplit. reflexivity. }
  assert (Hdir1 : os_path_dirname q1 <> []).
  { rewrite <- Hnew1, new_path_dirname. exact Hdir. }
  assert (Hnew2 : new_path q1 (lit "d") = q2).
  { unfold new_path, q1. rewrite splitext_obscured. cbn [fst].
    change (str_eqb (lit "d") (lit "o")) with false.
    unfold q2. rewrite <- app_assoc. reflexivity. }
  destruct (text_encodable T Htext) as [us Hus].
  set (C := map byte_of (shift_up seed us)).
  assert (HC : obscure_code_body (VStr T) seed = Ok C)
    by (apply obscure_code_body_encoded, Hus).
  destruct (updated_process_file_success p (lit "o") seed w raw C (VStr T) (VBytes C))
    as (w1 & Hrun1 & Hfs1 & Hcwd1).
  { now rewrite Hres. }
  { unfold content_of. change (str_eqb (lit "o") (lit "d")) with false.
    now rewrite Hread. }
  { unfold codec_value. change (str_eqb (lit "o") (lit "o")) with true.
    now rewrite HC. }
  { reflexivity. }
  { rewrite (Hres p Hdir), Hnew1. exact Hfree1. }
  rewrite (Hres p Hdir), Hnew1 in Hfs1.
  assert (Hne : abspath (w_cwd w) q2 <> abspath (w_cwd w) q1).
  { rewrite <- Hnew2. apply new_path_differs. }
  destruct (updated_process_file_success q1 (lit "d") seed w1 C data (VBytes C) (VStr T))
    as (w2 & Hrun2 & Hfs2 & _).
  { rewrite Hcwd1, (Hres q1 Hdir1), Hfs1. apply lookup_insert_eq. }
  { reflexivity. }
  { unfold codec_value. change (str_eqb (lit "d") (lit "o")) with false.
    unfold C. now rewrite (roundtrip_body _ _ _ Hus). }
  { exact Hwrite. }
  { rewrite Hcwd1, (Hres q1 Hdir1), Hnew2, Hfs1.
    rewrite lookup_insert_ne by (intros Heq; now apply Hne). exact Hfree2. }
  rewrite Hcwd1, (Hres q1 Hdir1), Hnew2, Hfs1 in Hfs2.
  exists C, w1, w2. repeat split; try assumption.
  rewrite Hfs2.
  rewrite lookup_insert_ne.
  - rewrite lookup_insert_ne; [exact Hfile|].
    rewrite <- Hnew1. apply new_path_differs.
  - intros Heq. rewrite Heq in Hfree2. congruence.
Qed.

End WholeRuns.

(** ** A wrong seed that goes through *)

(** ASCII characters are their own UTF-8 encoding. *)
Lemma utf8_ascii (l : list Z) :
  ascii_only l -> utf8_encode l = Some l /\ utf8_decode l = Some l.
Proof.
  induction 1 as [|c l Hc _ [IHe IHd]]; [now split|].
  cbn [utf8_encode utf8_decode]. unfold utf8_encode_char.
  decide_cmp. rewrite IHe, IHd. now split.
Qed.

Section WrongSeed.
Context `{Platform}.

(** X14. A wrong seed is not always noticed.  When the text is ASCII and
    the difference of the seeds keeps every character in the ASCII range,
    [deobscure_code] with the other seed raises nothing: it returns the
    text with every character shifted by the difference of the seeds. *)
Theorem wrong_seed_can_decode (T : str) (s s2 : Z) (w1 w2 : world) :
  ascii_only T ->
  ascii_only (map (fun c => (c + s - s2) mod 256) T) ->
  exists C,
    obscure_code (VStr T) s w1 = (Ok C, w1)
    /\ deobscure_code (VBytes C) s2 w2
       = (Ok (map (fun c => (c + s - s2) mod 256) T), w2).
Proof.
  intros HT Hshift. destruct (utf8_ascii T HT) as [Henc _].
  exists (map byte_of (shift_up s T)). split.
  - apply obscure_code_Ok, obscure_code_body_encoded, Henc.
  - apply deobscure_code_Ok. rewrite deobscure_code_body_decode.
    unfold shift_up. rewrite !map_map.
    replace (map (fun x => (byte_to_Z (byte_of ((x + s) mod 256)) - s2) mod 256) T)
      with (map (fun c => (c + s - s2) mod 256) T).
    + now rewrite (proj2 (utf8_ascii _ Hshift)).
    + apply map_ext. intros c.
      destruct (byte_of_Z_in_range ((c + s) mod 256)) as [_ ->]; lia.
Qed.

End WrongSeed.

(** ** The further properties on concrete inputs *)

(** An obscured file deobscured with the seed 1000 instead of 1234: the
    result is ASCII, and wrong. *)
Lemma wrong_seed_can_decode_witness :
  ascii_only (lit "print('hi')")
  /\ ascii_only (map (fun c => (c + 1234 - 1000) mod 256) (lit "print('hi')"))
  /\ exists C,
       @obscure_code ascii_platform (VStr (lit "print('hi')")) 1234 empty_world
       = (Ok C, empty_world)
       /\ @deobscure_code ascii_platform (VBytes C) 1000 empty_world
          = (Ok (map (fun c => (c + 1234 - 1000) mod 256) (lit "print('hi')")),
             empty_world).
Proof.
  assert (H1 : ascii_only (lit "print('hi')")) by (repeat constructor; lia).
  assert (H2 : ascii_only (map (fun c => (c + 1234 - 1000) mod 256)
                             (lit "print('hi')")))
    by (vm_compute; repeat constructor; discriminate).
  split; [exact H1|]. split; [exact H2|].
  exact (@wrong_seed_can_decode ascii_platform _ 1234 1000 empty_world empty_world
           H1 H2).
Defined.

(** No file [a.py] in the directory. *)
Lemma missing_input_reported_witness :
  (forall data, w_fs empty_world !! lit "/home/a.py" <> Some (File data))
  /\ @updated_process_file ascii_platform (lit "a.py") 1234 (lit "o") empty_world
     = (Ok (),
        printed (lit "Error: File /home/a.py does not exist.")
          (logged ERROR (lit "File /home/a.py does not exist.") (ticked empty_world))).
Proof.
  assert (Hno : forall data,
            w_fs empty_world
              !! abspath (w_cwd empty_world) (resolve_path (w_cwd empty_world) (lit "a.py"))
            <> Some (File data)) by (intros data; vm_compute; discriminate).
  split; [exact Hno|].
  exact (@missing_input_reported ascii_platform (lit "a.py") (lit "o") 1234
           empty_world Hno).
Defined.

Lemma hi_obscured_bad_under_1100 : ~ valid_utf8 (shift_down 1100 hi_obscured).
Proof.
  intros [T HT]. apply utf8_decode_iff in HT. vm_compute in HT. discriminate HT.
Qed.

(** Deobscuring with the seed 1100 what was obscured with 1234. *)
Lemma wrong_seed_writes_nothing_witness :
  w_fs obscured_world !! lit "/home/a_obscure.py" = Some (File hi_obscured)
  /\ ~ valid_utf8 (shift_down 1100 hi_obscured)
  /\ exists w',
       @updated_process_file ascii_platform (lit "a_obscure.py") 1100 (lit "d")
         obscured_world = (Ok (), w')
       /\ w_fs w' = w_fs obscured_world.
Proof.
  assert (Hfile : w_fs obscured_world
                    !! abspath (w_cwd obscured_world)
                         (resolve_path (w_cwd obscured_world) (lit "a_obscure.py"))
                  = Some (File hi_obscured)) by (vm_compute; reflexivity).
  split; [exact Hfile|]. split; [exact hi_obscured_bad_under_1100|].
  destruct (@wrong_seed_writes_nothing ascii_platform (lit "a_obscure.py") 1100
              obscured_world hi_obscured Hfile hi_obscured_bad_under_1100)
    as (w' & Hrun & Hfs & _).
  exists w'. split; assumption.
Defined.

(** The mode [x] on the source file. *)
Lemma unknown_mode_writes_nothing_witness :
  exists w',
    @updated_process_file ascii_platform (lit "a.py") 1234 (lit "x") (fresh_world [])
    = (Ok (), w')
    /\ w_fs w' = w_fs (fresh_world []).
Proof.
  assert (Hfile : w_fs (fresh_world [])
                    !! abspath (w_cwd (fresh_world []))
                         (resolve_path (w_cwd (fresh_world [])) (lit "a.py"))
                  = Some (File hi_py)) by (vm_compute; reflexivity).
  assert (Hread : @text_read ascii_platform hi_py = Ok (112 :: lit "rint('hi')"))
    by (vm_compute; reflexivity).
  destruct (@unknown_mode_writes_nothing ascii_platform (lit "a.py") (lit "x") 1234
              (fresh_world []) hi_py 112 (lit "rint('hi')")
              ltac:(discriminate) ltac:(discriminate) Hfile Hread)
    as (w' & Hrun & Hfs & _).
  exists w'. split; assumption.
Defined.

(** The source file obscured and deobscured again. *)
Lemma file_roundtrip_witness :
  let w := fresh_world [] in
  exists w1 w2,
    @updated_process_file ascii_platform (lit "/home/a.py") 1234 (lit "o") w
    = (Ok (), w1)
    /\ @updated_process_file ascii_platform (lit "/home/a_obscure.py") 1234 (lit "d") w1
       = (Ok (), w2)
    /\ w_fs w2
       = <[lit "/home/a_obscure_deobscure.py" := File hi_py]>
           (<[lit "/home/a_obscure.py" := File hi_obscured]> (w_fs w)).
Proof.
  cbv zeta.
  assert (Htext : text (lit "print('hi')")) by (unfold text; repeat constructor).
  destruct (@file_roundtrip ascii_platform (lit "/home/a.py") (lit "/home/a") 1234
              (fresh_world []) hi_py hi_py (lit "print('hi')"))
    as (C & w1 & w2 & Hrun1 & Hrun2 & HC & Hfs & _).
  - vm_compute. discriminate.
  - vm_compute. reflexivity.
  - vm_compute. reflexivity.
  - vm_compute. reflexivity.
  - exact Htext.
  - vm_compute. reflexivity.
  - vm_compute. reflexivity.
  - vm_compute. reflexivity.
  - exists w1, w2. split; [exact Hrun1|]. split; [exact Hrun2|].
    assert (HC' : C = hi_obscured).
    { assert (Hv : obscure_code_body (VStr (lit "print('hi')")) 1234 = Ok hi_obscured)
        by (vm_compute; reflexivity).
      rewrite Hv in HC. now injection HC. }
    rewrite <- HC'. exact Hfs.
Defined.

Lemma calculate_md5_digests_whole_file_witness :
  md5_loop bytes feed (S (length big_file)) [] big_file = Some big_file
  /\ @calculate_md5 ascii_platform (lit "big.py") big_world
     = (Ok (@md5_hexdigest ascii_platform big_file), big_world).
Proof.
  pose proof (@calculate_md5_digests_whole_file ascii_platform bytes [] feed
                (@md5_hexdigest ascii_platform)
                (fun h a b => eq_sym (app_assoc h a b))
                (fun h => app_nil_r h)
                (fun data => eq_refl)
                (lit "big.py") big_world) as Hw.
  assert (Hfile : w_fs big_world !! abspath (w_cwd big_world) (lit "big.py")
                  = Some (File big_file)) by (vm_compute; reflexivity).
  rewrite Hfile in Hw. destruct Hw as (h & Hloop & -> & Hrun).
  split; [exact Hloop | exact Hrun].
Defined.

